(** * BM25 and TF-IDF ranking engines: a shallow embedding

    Embedding of [src/indexes/bm25/bm25_calculator.py],
    [src/indexes/bm25/document_ranker.py] and
    [src/indexes/tf-idf/tfidf_calculator.py].

    Modelling conventions.
    - A Python [float] is an exact rational ([Q]); rounding is not modelled.
      [math.log] is a parameter [ln : Q -> Q] of the development, so every
      theorem holds for any logarithm.  A division whose divisor is zero
      raises [ZeroDivisionError], as in Python.
    - A Python [int] that counts something is a [nat]; an [int] argument that
      may be negative (a list index, a slice bound) is a [Z].
    - A [str] is a [string]; [str.lower] maps the ASCII capitals and
      [str.split] cuts at the ASCII white-space characters.
    - A [set] of strings is a [gset string], a [dict] keyed by strings a
      [gmap string _]; iterating over a [set] visits [elements] of it, an
      order on which no statement below relies.
    - An exception is a value of [exn]; a method that mutates [self] and may
      raise is a function from the object to a result and the object as it
      is when the method returns or raises. *)

From Stdlib Require Import Ascii QArith Lqa.
From stdpp Require Import gmap strings list fin_maps sorting.

Local Open Scope Z_scope.
Local Open Scope Q_scope.
Local Open Scope nat_scope.
Local Open Scope string_scope.
Local Open Scope list_scope.

(** ** Exceptions and results *)

Inductive exn : Type :=
  | ZeroDivisionError
  | IndexError
  | KeyError
  | ValueError.

Inductive result (A : Type) : Type :=
  | Ok (a : A)
  | Raise (e : exn).
Arguments Ok {A} a.
Arguments Raise {A} e.

(** Sequencing: an exception raised by the first computation propagates. *)
#[global] Instance result_ret : MRet result := fun A a => Ok a.
#[global] Instance result_bind : MBind result := fun A B k r =>
  match r with
  | Ok a => k a
  | Raise e => Raise e
  end.

Definition is_ok {A : Type} (r : result A) : bool :=
  match r with Ok _ => true | Raise _ => false end.

(** ** Python primitives *)

(** [x / y] on numbers. *)
Definition py_div (x y : Q) : result Q :=
  if Qeq_bool y 0 then Raise ZeroDivisionError else Ok (x / y)%Q.

(** [l[i]] with Python's negative indices. *)
Definition py_index {A : Type} (l : list A) (i : Z) : result A :=
  let n := Z.of_nat (length l) in
  let j := if (i <? 0)%Z then (i + n)%Z else i in
  if ((j <? 0) || (n <=? j))%Z then Raise IndexError
  else match l !! Z.to_nat j with
       | Some a => Ok a
       | None => Raise IndexError
       end.

(** [l[:k]], with [k = None] for the whole list. *)
Definition py_slice_to {A : Type} (l : list A) (k : Z) : list A :=
  if (k <? 0)%Z then take (Z.to_nat (Z.of_nat (length l) + k)) l
  else take (Z.to_nat k) l.

(** [d[k]] on a dict. *)
Definition py_getitem {V : Type} (d : gmap string V) (k : string) : result V :=
  match d !! k with
  | Some v => Ok v
  | None => Raise KeyError
  end.

(** [d.get(k, 0)] on a [Counter]. *)
Definition py_get0 (d : gmap string nat) (k : string) : nat :=
  default 0 (d !! k).

(** [Counter(tokens)]. *)
Definition Counter (tokens : list string) : gmap string nat :=
  foldl (fun m t => <[t := S (py_get0 m t)]> m) ∅ tokens.

(** [sum] of a list of [int]. *)
Definition py_sum (l : list nat) : nat := foldl Nat.add 0 l.

(** [sum(1 for doc in docs if term in doc)]. *)
Definition docs_containing (term : string) (docs : list (list string)) : nat :=
  length (filter (fun doc => term ∈ doc) docs).

(** [doc.count(term)]. *)
Definition py_count (term : string) (doc : list string) : nat :=
  length (filter (fun t => t = term) doc).

Definition Qnat (n : nat) : Q := inject_Z (Z.of_nat n).

(** [list.sort(key=..., reverse=True)]: a stable sort, larger keys first,
    equal keys in their original order. *)
Section Sort.
Context {A : Type} (key : A -> Q).

Fixpoint insert_desc (x : A) (l : list A) : list A :=
  match l with
  | [] => [x]
  | y :: l' =>
      if Qle_bool (key y) (key x) then x :: l
      else y :: insert_desc x l'
  end.

Definition sort_desc (l : list A) : list A := foldr insert_desc [] l.

(** The orders that the result is shown to have: larger keys first, and,
    for elements that carry an index, equal keys by increasing index. *)
Definition key_ge (x y : A) : Prop := (key y <= key x)%Q.

Definition stable_before (idx : A -> nat) (x y : A) : Prop :=
  (key y < key x)%Q ∨ ((key y == key x)%Q ∧ idx x < idx y).
End Sort.

(** ** The tokenizer: [text.lower().split()] *)

Definition lower_ascii (c : ascii) : ascii :=
  let n := nat_of_ascii c in
  if ((65 <=? n) && (n <=? 90))%nat then ascii_of_nat (n + 32) else c.

Fixpoint lower (s : string) : string :=
  match s with
  | EmptyString => EmptyString
  | String c s' => String (lower_ascii c) (lower s')
  end.

Definition is_space (c : ascii) : bool :=
  let n := nat_of_ascii c in
  (((9 <=? n) && (n <=? 13)) || ((28 <=? n) && (n <=? 32)))%nat.

Definition flush (cur : list ascii) (k : list string) : list string :=
  match cur with
  | [] => k
  | _ => String.string_of_list_ascii (rev cur) :: k
  end.

Fixpoint split_from (cur : list ascii) (s : string) : list string :=
  match s with
  | EmptyString => flush cur []
  | String c s' =>
      if is_space c then flush cur (split_from [] s')
      else split_from (c :: cur) s'
  end.

Definition split (s : string) : list string := split_from [] s.

Definition preprocess_text (text : string) : list string := split (lower text).

(** [math.log]: the logarithm itself is the parameter [ln]. *)
Definition py_log (ln : Q -> Q) (x : Q) : result Q :=
  if Qle_bool x 0 then Raise ValueError else Ok (ln x).

(** A loop [for x in l: acc = body(acc, x)] in which [body] may raise. *)
Fixpoint for_acc {A B : Type} (l : list A) (acc : B)
    (body : B -> A -> result B) : result B :=
  match l with
  | [] => Ok acc
  | x :: l' => acc' ← body acc x; for_acc l' acc' body
  end.

(** ** Methods that mutate [self] *)

Definition M (S A : Type) : Type := S -> result A * S.

#[global] Instance M_ret {S} : MRet (M S) := fun A a s => (Ok a, s).
#[global] Instance M_bind {S} : MBind (M S) := fun A B k m s =>
  match m s with
  | (Ok a, s') => k a s'
  | (Raise e, s') => (Raise e, s')
  end.

Definition gets {S A : Type} (f : S -> A) : M S A := fun s => (Ok (f s), s).
Definition modify {S : Type} (f : S -> S) : M S unit := fun s => (Ok tt, f s).
Definition lift {S A : Type} (r : result A) : M S A := fun s => (r, s).

(** A loop [for x in l: body(x)] over a mutated object. *)
Fixpoint for_each {S A : Type} (l : list A) (body : A -> M S unit) : M S unit :=
  match l with
  | [] => mret tt
  | x :: l' => body x;; for_each l' body
  end.

(** ** [BM25Calculator] *)

Module BM25Calculator.

Record t : Type := mk {
  k1 : Q;
  b : Q;
  documents : list string;
  doc_lengths : list nat;
  avg_doc_length : Q;
  vocabulary : gset string;
  doc_term_freqs : list (gmap string nat);
  idf_scores : gmap string Q;
  N : nat
}.

Definition set_documents (v : list string) (s : t) : t :=
  mk (k1 s) (b s) v (doc_lengths s) (avg_doc_length s) (vocabulary s)
     (doc_term_freqs s) (idf_scores s) (N s).
Definition set_doc_lengths (v : list nat) (s : t) : t :=
  mk (k1 s) (b s) (documents s) v (avg_doc_length s) (vocabulary s)
     (doc_term_freqs s) (idf_scores s) (N s).
Definition set_avg_doc_length (v : Q) (s : t) : t :=
  mk (k1 s) (b s) (documents s) (doc_lengths s) v (vocabulary s)
     (doc_term_freqs s) (idf_scores s) (N s).
Definition set_vocabulary (v : gset string) (s : t) : t :=
  mk (k1 s) (b s) (documents s) (doc_lengths s) (avg_doc_length s) v
     (doc_term_freqs s) (idf_scores s) (N s).
Definition set_doc_term_freqs (v : list (gmap string nat)) (s : t) : t :=
  mk (k1 s) (b s) (documents s) (doc_lengths s) (avg_doc_length s)
     (vocabulary s) v (idf_scores s) (N s).
Definition set_idf_scores (v : gmap string Q) (s : t) : t :=
  mk (k1 s) (b s) (documents s) (doc_lengths s) (avg_doc_length s)
     (vocabulary s) (doc_term_freqs s) v (N s).
Definition set_N (v : nat) (s : t) : t :=
  mk (k1 s) (b s) (documents s) (doc_lengths s) (avg_doc_length s)
     (vocabulary s) (doc_term_freqs s) (idf_scores s) v.

(** [__init__(k1, b)]. *)
Definition init (k1 b : Q) : result t :=
  Ok (mk k1 b [] [] 0 ∅ [] ∅ 0).

Section WithLog.
Context (ln : Q -> Q).

(** The smoothed inverse document frequency of a term that occurs in
    [doc_count] of [n] documents. *)
Definition idf_of (n doc_count : nat) : result Q :=
  q ← py_div (inject_Z (Z.of_nat n - Z.of_nat doc_count)%Z + (1 # 2))%Q
             (Qnat doc_count + (1 # 2))%Q;
  py_log ln q.

(** [_calculate_idf_scores(processed_docs)]. *)
Definition _calculate_idf_scores (processed_docs : list (list string)) : M t unit :=
  vocab ← gets vocabulary;
  for_each (elements vocab) (fun term =>
    let doc_count := docs_containing term processed_docs in
    n ← gets N;
    idf ← lift (idf_of n doc_count);
    modify (fun s => set_idf_scores (<[term := idf]> (idf_scores s)) s)).

(** [fit(documents)].  The local list [processed_docs], to which the first
    loop appends the tokens of each document, is bound after that loop. *)
Definition fit (docs : list string) : M t unit :=
  modify (set_documents docs);;
  modify (set_N (length docs));;
  modify (set_doc_lengths []);;
  for_each docs (fun doc =>
    let tokens := preprocess_text doc in
    modify (fun s => set_doc_lengths (doc_lengths s ++ [length tokens]) s);;
    modify (fun s => set_vocabulary (vocabulary s ∪ list_to_set tokens) s));;
  let processed_docs := preprocess_text <$> docs in
  lens ← gets doc_lengths;
  avg ← lift (py_div (Qnat (py_sum lens)) (Qnat (length lens)));
  modify (set_avg_doc_length avg);;
  modify (set_doc_term_freqs []);;
  for_each processed_docs (fun tokens =>
    modify (fun s => set_doc_term_freqs (doc_term_freqs s ++ [Counter tokens]) s));;
  _calculate_idf_scores processed_docs.

(** The score that one query term adds for a document: the body of the
    loops of [calculate_bm25_score], [get_term_analysis] and
    [get_top_keywords] after the vocabulary test. *)
Definition length_norm_of (s : t) (doc_length : nat) : result Q :=
  ratio ← py_div (Qnat doc_length) (avg_doc_length s);
  mret (1 - b s + b s * ratio)%Q.

Definition term_score_of (s : t) (tf : nat) (idf length_norm : Q) : result Q :=
  py_div (idf * (Qnat tf * (k1 s + 1)))%Q (Qnat tf + k1 s * length_norm)%Q.

(** [calculate_bm25_score(query, doc_idx)]. *)
Definition calculate_bm25_score (query : string) (doc_idx : Z) (s : t) : result Q :=
  let query_terms := preprocess_text query in
  doc_term_freq ← py_index (doc_term_freqs s) doc_idx;
  doc_length ← py_index (doc_lengths s) doc_idx;
  for_acc query_terms 0%Q (fun score term =>
    if decide (term ∈ vocabulary s) then
      let tf := py_get0 doc_term_freq term in
      idf ← py_getitem (idf_scores s) term;
      length_norm ← length_norm_of s doc_length;
      term_score ← term_score_of s tf idf length_norm;
      mret (score + term_score)%Q
    else mret score).

(** [rank_documents(query, top_k)]. *)
Definition rank_documents (query : string) (top_k : option Z) (s : t)
    : result (list (nat * string * Q)) :=
  scores ← for_acc (seq 0 (length (documents s))) []
    (fun scores i =>
       score ← calculate_bm25_score query (Z.of_nat i) s;
       doc ← py_index (documents s) (Z.of_nat i);
       mret (scores ++ [(i, doc, score)]));
  let scores := sort_desc snd scores in
  mret (match top_k with
        | Some k => py_slice_to scores k
        | None => scores
        end).

(** One entry of [analysis['terms']] and the dictionary that
    [get_term_analysis] returns. *)
Record term_info : Type := mk_term_info {
  term : string;
  query_count : nat;
  doc_tf : nat;
  idf : Q;
  length_norm : Q;
  term_score : Q;
  weighted_score : Q
}.

Record analysis : Type := mk_analysis {
  document_index : Z;
  document_length : nat;
  analysis_avg_doc_length : Q;
  length_ratio : Q;
  terms : list term_info;
  total_score : Q
}.

(** [get_term_analysis(query, doc_idx)]. *)
Definition get_term_analysis (query : string) (doc_idx : Z) (s : t) : result analysis :=
  let query_terms := preprocess_text query in
  doc_term_freq ← py_index (doc_term_freqs s) doc_idx;
  doc_length ← py_index (doc_lengths s) doc_idx;
  ratio ← py_div (Qnat doc_length) (avg_doc_length s);
  acc ← for_acc (elements (list_to_set query_terms : gset string)) (0%Q, [])
    (fun acc term =>
       if decide (term ∈ vocabulary s) then
         let tf := py_get0 doc_term_freq term in
         idf ← py_getitem (idf_scores s) term;
         length_norm ← length_norm_of s doc_length;
         term_score ← term_score_of s tf idf length_norm;
         let query_count := py_count term query_terms in
         let weighted_score := (term_score * Qnat query_count)%Q in
         mret ((acc.1 + weighted_score)%Q,
               acc.2 ++ [mk_term_info term query_count tf idf length_norm
                                      term_score weighted_score])
       else mret acc);
  mret (mk_analysis doc_idx doc_length (avg_doc_length s) ratio acc.2 acc.1).

(** The inner loop of [get_top_keywords]: the summed score of [term] over
    the documents that contain it, and their number. *)
Definition term_contribution (term : string) (s : t) : result (Q * nat) :=
  for_acc (seq 0 (length (documents s))) (0%Q, 0)
    (fun acc doc_idx =>
       freq ← py_index (doc_term_freqs s) (Z.of_nat doc_idx);
       let tf := py_get0 freq term in
       if (0 <? tf)%nat then
         idf ← py_getitem (idf_scores s) term;
         doc_length ← py_index (doc_lengths s) (Z.of_nat doc_idx);
         length_norm ← length_norm_of s doc_length;
         term_score ← term_score_of s tf idf length_norm;
         mret ((acc.1 + term_score)%Q, S acc.2)
       else mret acc).

(** [get_top_keywords(query, top_k)].  The dictionary [term_scores] is
    the list of its items in insertion order; each key is inserted once. *)
Definition get_top_keywords (query : string) (top_k : Z) (s : t)
    : result (list (string * Q)) :=
  let query_terms := preprocess_text query in
  term_scores ← for_acc (elements (list_to_set query_terms : gset string)) []
    (fun term_scores term =>
       if decide (term ∈ vocabulary s) then
         c ← term_contribution term s;
         if (0 <? c.2)%nat then
           avg_score ← py_div c.1 (Qnat c.2);
           mret (term_scores ++ [(term, avg_score)])
         else mret term_scores
       else mret term_scores);
  mret (py_slice_to (sort_desc snd term_scores) top_k).
End WithLog.
End BM25Calculator.

(** [min(l)] and [max(l)] of a list of [int]. *)
Definition py_min (l : list nat) : result nat :=
  match l with
  | [] => Raise ValueError
  | x :: l' => Ok (foldl Nat.min x l')
  end.

Definition py_max (l : list nat) : result nat :=
  match l with
  | [] => Raise ValueError
  | x :: l' => Ok (foldl Nat.max x l')
  end.

(** [math.sqrt]: the root itself is a parameter [sqrt]. *)
Definition py_sqrt (sqrt : Q -> Q) (x : Q) : result Q :=
  if Qle_bool 0 x then Ok (sqrt x) else Raise ValueError.

(** [d[k] = v] on a dictionary kept as the list of its items in insertion
    order: the value of a key that is present is replaced in place, a new key
    goes to the end. *)
Fixpoint py_setitem {V : Type} (d : list (string * V)) (k : string) (v : V)
    : list (string * V) :=
  match d with
  | [] => [(k, v)]
  | (k', v') :: d' =>
      if decide (k' = k) then (k, v) :: d' else (k', v') :: py_setitem d' k v
  end.

(** [sum] of a list of numbers. *)
Definition py_fsum (l : list Q) : Q := foldl Qplus 0%Q l.

(** ** [BM25DocumentRanker] *)

Module BM25DocumentRanker.

Record t : Type := mk {
  bm25_calc : BM25Calculator.t;
  documents : list string;
  fitted : bool
}.

(** [__init__(k1, b)]. *)
Definition init (k1 b : Q) : result t :=
  calc ← BM25Calculator.init k1 b;
  mret (mk calc [] false).

(** A call of a mutating method of the attribute [bm25_calc]. *)
Definition on_calc {A : Type} (m : M BM25Calculator.t A) : M t A := fun r =>
  let '(res, calc) := m (bm25_calc r) in
  (res, mk calc (documents r) (fitted r)).

Section WithLog.
Context (ln : Q -> Q).

(** [fit(documents)]. *)
Definition fit (docs : list string) : M t unit :=
  modify (fun r => mk (bm25_calc r) docs (fitted r));;
  on_calc (BM25Calculator.fit ln docs);;
  modify (fun r => mk (bm25_calc r) (documents r) true).


(** [explain_ranking(query, doc_idx)]. *)
Definition explain_ranking (query : string) (doc_idx : Z) (r : t)
    : result BM25Calculator.analysis :=
  if negb (fitted r) then Raise ValueError
  else BM25Calculator.get_term_analysis query doc_idx (bm25_calc r).
End WithLog.

(** The dictionary that [get_corpus_statistics] returns. *)
Record statistics : Type := mk_statistics {
  num_documents : nat;
  vocabulary_size : nat;
  avg_document_length : Q;
  total_terms : nat;
  min_doc_length : nat;
  max_doc_length : nat;
  parameters_k1 : Q;
  parameters_b : Q
}.

(** [get_corpus_statistics()]. *)
Definition get_corpus_statistics (r : t) : result statistics :=
  if negb (fitted r) then Raise ValueError
  else
    let calc := bm25_calc r in
    mn ← py_min (BM25Calculator.doc_lengths calc);
    mx ← py_max (BM25Calculator.doc_lengths calc);
    mret (mk_statistics (length (documents r))
            (size (BM25Calculator.vocabulary calc))
            (BM25Calculator.avg_doc_length calc)
            (py_sum (BM25Calculator.doc_lengths calc))
            mn mx
            (BM25Calculator.k1 calc) (BM25Calculator.b calc)).
End BM25DocumentRanker.

(** ** [TFIDFCalculator] *)

Module TFIDFCalculator.

Record t : Type := mk {
  documents : list (list string);
  vocabulary : gset string;
  idf_scores : gmap string Q
}.

(** [__init__()]. *)
Definition init : result t := Ok (mk [] ∅ ∅).

(** [calculate_tf(term, document)]. *)
Definition calculate_tf (term : string) (document : list string) : result Q :=
  if (length document =? 0)%nat then Ok 0%Q
  else
    let term_count := py_count term document in
    let total_terms := length document in
    py_div (Qnat term_count) (Qnat total_terms).

Section WithLog.
Context (ln : Q -> Q).

(** [calculate_idf(term, documents)]. *)
Definition calculate_idf (term : string) (docs : list (list string)) : result Q :=
  let total_documents := length docs in
  let documents_with_term := docs_containing term docs in
  if (documents_with_term =? 0)%nat then Ok 0%Q
  else
    q ← py_div (Qnat total_documents) (Qnat documents_with_term);
    py_log ln q.

(** [fit(documents)]. *)
Definition fit (docs : list string) : M t unit :=
  modify (fun s => mk (preprocess_text <$> docs) (vocabulary s) (idf_scores s));;
  ds ← gets documents;
  for_each ds (fun doc =>
    modify (fun s => mk (documents s) (vocabulary s ∪ list_to_set doc) (idf_scores s)));;
  vocab ← gets vocabulary;
  for_each (elements vocab) (fun term =>
    ds ← gets documents;
    idf ← lift (calculate_idf term ds);
    modify (fun s => mk (documents s) (vocabulary s) (<[term := idf]> (idf_scores s)))).

(** [calculate_tfidf_vector(text)]. *)
Definition calculate_tfidf_vector (text : string) (s : t) : result (gmap string Q) :=
  match documents s with
  | [] => Raise ValueError
  | _ =>
      let tokens := preprocess_text text in
      for_acc tokens ∅ (fun tfidf_vector term =>
        if decide (term ∈ vocabulary s) then
          tf ← calculate_tf term tokens;
          idf ← py_getitem (idf_scores s) term;
          mret (<[term := (tf * idf)%Q]> tfidf_vector)
        else mret tfidf_vector)
  end.
End WithLog.

(** [calculate_tfidf_vector(text)] once more, with the dictionary as the
    list of its items in insertion order, which is the order in which
    [get_top_keywords] sorts them. *)
Definition calculate_tfidf_vector_items (text : string) (s : t)
    : result (list (string * Q)) :=
  match documents s with
  | [] => Raise ValueError
  | _ =>
      let tokens := preprocess_text text in
      for_acc tokens [] (fun tfidf_vector term =>
        if decide (term ∈ vocabulary s) then
          tf ← calculate_tf term tokens;
          idf ← py_getitem (idf_scores s) term;
          mret (py_setitem tfidf_vector term (tf * idf)%Q)
        else mret tfidf_vector)
  end.

(** [get_top_keywords(text, top_k)]. *)
Definition get_top_keywords (text : string) (top_k : Z) (s : t)
    : result (list (string * Q)) :=
  tfidf_vector ← calculate_tfidf_vector_items text s;
  let sorted_terms := sort_desc snd tfidf_vector in
  mret (py_slice_to sorted_terms top_k).
End TFIDFCalculator.

(** ** [DocumentRanker], the TF-IDF ranker *)

Module DocumentRanker.

Record t : Type := mk {
  tfidf_calc : TFIDFCalculator.t;
  documents : list string;
  document_vectors : list (gmap string Q)
}.

(** [__init__()]. *)
Definition init : result t :=
  calc ← TFIDFCalculator.init;
  mret (mk calc [] []).

(** A call of a mutating method of the attribute [tfidf_calc]. *)
Definition on_calc {A : Type} (m : M TFIDFCalculator.t A) : M t A := fun r =>
  let '(res, calc) := m (tfidf_calc r) in
  (res, mk calc (documents r) (document_vectors r)).

(** [fit(documents)]. *)
Definition fit (ln : Q -> Q) (docs : list string) : M t unit :=
  modify (fun r => mk (tfidf_calc r) docs (document_vectors r));;
  on_calc (TFIDFCalculator.fit ln docs);;
  modify (fun r => mk (tfidf_calc r) (documents r) []);;
  for_each docs (fun doc =>
    calc ← gets tfidf_calc;
    doc_vector ← lift (TFIDFCalculator.calculate_tfidf_vector doc calc);
    modify (fun r => mk (tfidf_calc r) (documents r)
                       (document_vectors r ++ [doc_vector]))).

Section WithSqrt.
Context (sqrt : Q -> Q).

(** [cosine_similarity(vec1, vec2)]. *)
Definition cosine_similarity (vec1 vec2 : gmap string Q) : result Q :=
  let all_terms : gset string := dom vec1 ∪ dom vec2 in
  if decide (all_terms = ∅) then Ok 0%Q
  else
    let v1 := (fun term => default 0%Q (vec1 !! term)) <$> elements all_terms in
    let v2 := (fun term => default 0%Q (vec2 !! term)) <$> elements all_terms in
    let dot_product := py_fsum (zip_with Qmult v1 v2) in
    norm_v1 ← py_sqrt sqrt (py_fsum ((fun a => a * a)%Q <$> v1));
    norm_v2 ← py_sqrt sqrt (py_fsum ((fun b => b * b)%Q <$> v2));
    if Qeq_bool norm_v1 0 || Qeq_bool norm_v2 0 then Ok 0%Q
    else py_div dot_product (norm_v1 * norm_v2)%Q.

(** [rank_documents(query, top_k)]. *)
Definition rank_documents (query : string) (top_k : option Z) (r : t)
    : result (list (nat * string * Q)) :=
  query_vector ← TFIDFCalculator.calculate_tfidf_vector query (tfidf_calc r);
  scores ← for_acc (imap (fun i v => (i, v)) (document_vectors r)) []
    (fun scores iv =>
       similarity ← cosine_similarity query_vector iv.2;
       doc ← py_index (documents r) (Z.of_nat iv.1);
       mret (scores ++ [(iv.1, doc, similarity)]));
  let scores := sort_desc snd scores in
  mret (match top_k with
        | Some k => py_slice_to scores k
        | None => scores
        end).
End WithSqrt.
End DocumentRanker.

(** ** The scoring formulas, as the specification words them

    [docs] is the fitted corpus; a term is counted in the tokens of a
    document, a document frequency over the tokenized corpus. *)

Module Formula.
Section Corpus.
Context (ln : Q -> Q) (k1 b : Q) (docs : list string).

Definition corpus : list (list string) := preprocess_text <$> docs.
Definition doc_count : nat := length docs.
Definition tokens_of (d : nat) : list string := default [] (corpus !! d).

(** Number of documents that contain the term at least once. *)
Definition df (t : string) : nat :=
  length (filter (fun doc => t ∈ doc) corpus).

(** Raw occurrence count of the term in document [d]. *)
Definition tf (t : string) (d : nat) : nat := py_count t (tokens_of d).

Definition doc_length (d : nat) : nat := length (tokens_of d).

(** sum(lengths) / document_count *)
Definition avg_doc_length : Q :=
  (Qnat (py_sum (length <$> corpus)) / Qnat (length corpus))%Q.

(** idf(t) = ln((N - df(t) + 0.5) / (df(t) + 0.5)) *)
Definition idf (t : string) : Q :=
  ln ((inject_Z (Z.of_nat doc_count - Z.of_nat (df t))%Z + (1 # 2))
      / (Qnat (df t) + (1 # 2)))%Q.

(** length_norm = 1 - b + b * (doc_length[d] / avg_doc_length) *)
Definition length_norm (d : nat) : Q :=
  (1 - b + b * (Qnat (doc_length d) / avg_doc_length))%Q.

(** term_score = idf(t) * (tf(t,d) * (k1 + 1)) / (tf(t,d) + k1 * length_norm) *)
Definition term_score (t : string) (d : nat) : Q :=
  (idf t * (Qnat (tf t d) * (k1 + 1))
   / (Qnat (tf t d) + k1 * length_norm d))%Q.

(** Both divisions of [term_score] have a non-zero divisor. *)
Definition divisors_nonzero (t : string) (d : nat) : Prop :=
  ¬ (avg_doc_length == 0)%Q ∧
  ¬ (Qnat (tf t d) + k1 * length_norm d == 0)%Q.

(** Sum of [term_score] over the query tokens that are in the
    vocabulary, one summand per occurrence. *)
Definition score (vocab : gset string) (query : string) (d : nat) : Q :=
  foldl Qplus 0%Q
    ((fun t => term_score t d) <$>
       filter (fun t => t ∈ vocab) (preprocess_text query)).



(** The documents in which the term has a non-zero frequency, and the
    mean of its [term_score] over them. *)
Definition containing (t : string) : list nat :=
  filter (fun d => 0 < tf t d) (seq 0 doc_count).

Definition mean_score (t : string) : Q :=
  (foldl Qplus 0%Q (term_score t <$> containing t)
   / Qnat (length (containing t)))%Q.

(** The keywords of a query before sorting: its distinct terms that are
    in the vocabulary and occur in some document, with their mean. *)
Definition keyword_means (vocab : gset string) (query : string)
    : list (string * Q) :=
  (fun t => (t, mean_score t)) <$>
    filter (fun t => t ∈ vocab ∧ containing t ≠ [])
           (elements (list_to_set (preprocess_text query) : gset string)).
End Corpus.
End Formula.

(** ** Derived notions used in the statements *)

(** The state a successful [BM25Calculator.fit] of [docs] leaves. *)
Definition bm25_fitted (ln : Q -> Q) (docs : list string)
    (s0 : BM25Calculator.t) : BM25Calculator.t :=
  let processed := preprocess_text <$> docs in
  let vocab := foldl (fun v tokens => v ∪ list_to_set tokens)
                     (BM25Calculator.vocabulary s0) processed in
  BM25Calculator.mk
    (BM25Calculator.k1 s0) (BM25Calculator.b s0) docs
    (length <$> processed)
    (Qnat (py_sum (length <$> processed)) / Qnat (length processed))%Q
    vocab
    (Counter <$> processed)
    (foldl (fun m t =>
              <[t := ln ((inject_Z (Z.of_nat (length docs)
                                    - Z.of_nat (docs_containing t processed))%Z
                          + (1 # 2))
                         / (Qnat (docs_containing t processed) + (1 # 2)))%Q]> m)
           (BM25Calculator.idf_scores s0) (elements vocab))
    (length docs).

(** The state a [TFIDFCalculator.fit] of [docs] leaves. *)
Definition tfidf_idf_value (ln : Q -> Q) (t : string)
    (processed : list (list string)) : Q :=
  if (docs_containing t processed =? 0)%nat then 0%Q
  else ln (Qnat (length processed) / Qnat (docs_containing t processed))%Q.

Definition tfidf_fitted (ln : Q -> Q) (docs : list string)
    (s0 : TFIDFCalculator.t) : TFIDFCalculator.t :=
  let processed := preprocess_text <$> docs in
  let vocab := foldl (fun v tokens => v ∪ list_to_set tokens)
                     (TFIDFCalculator.vocabulary s0) processed in
  TFIDFCalculator.mk processed vocab
    (foldl (fun m t => <[t := tfidf_idf_value ln t processed]> m)
           (TFIDFCalculator.idf_scores s0) (elements vocab)).

(** Successive calls of [fit] on one object, a raised exception being
    caught by the caller. *)
Definition bm25_fits (ln : Q -> Q) (corpora : list (list string))
    (s : BM25Calculator.t) : BM25Calculator.t :=
  foldl (fun s docs => (BM25Calculator.fit ln docs s).2) s corpora.

Definition tfidf_fits (ln : Q -> Q) (corpora : list (list string))
    (s : TFIDFCalculator.t) : TFIDFCalculator.t :=
  foldl (fun s docs => (TFIDFCalculator.fit ln docs s).2) s corpora.

(** Every term of the vocabulary has an entry in the IDF table. *)
Definition bm25_vocab_covered (s : BM25Calculator.t) : Prop :=
  BM25Calculator.vocabulary s ⊆ dom (BM25Calculator.idf_scores s).

Definition tfidf_vocab_covered (s : TFIDFCalculator.t) : Prop :=
  TFIDFCalculator.vocabulary s ⊆ dom (TFIDFCalculator.idf_scores s).

(** The object [BM25Calculator(k1, b)] and [TFIDFCalculator()]. *)
Definition bm25_new (k1 b : Q) : BM25Calculator.t :=
  BM25Calculator.mk k1 b [] [] 0 ∅ [] ∅ 0.

Definition tfidf_new : TFIDFCalculator.t := TFIDFCalculator.mk [] ∅ ∅.

(** The order of a ranking: a higher score first, and of two equal scores
    the smaller document index first. *)
Definition rank_before (x y : nat * string * Q) : Prop :=
  (y.2 < x.2)%Q ∨ ((y.2 == x.2)%Q ∧ x.1.1 < y.1.1).

(** A rational function with the sign of the logarithm, to run the model on
    concrete corpora. *)
Definition ln_approx (x : Q) : Q := (2 * (x - 1) / (x + 1))%Q.

(** The default parameters [k1 = 1.2], [b = 0.75]. *)
Definition k1_default : Q := 12 # 10.
Definition b_default : Q := 3 # 4.

(** A small corpus, fitted on a new object with the default parameters. *)
Definition demo_docs : list string :=
  ["the cat sat"; "the dog ran"; "cats and dogs"].
Definition demo_new : BM25Calculator.t := bm25_new k1_default b_default.
Definition demo_fitted : BM25Calculator.t :=
  (BM25Calculator.fit ln_approx demo_docs demo_new).2.
Definition demo_tfidf : TFIDFCalculator.t :=
  (TFIDFCalculator.fit ln_approx demo_docs tfidf_new).2.

(** The object [BM25DocumentRanker(k1, b)]. *)
Definition ranker_new (k1 b : Q) : BM25DocumentRanker.t :=
  BM25DocumentRanker.mk (bm25_new k1 b) [] false.

(** * Properties *)

(** ** Rational arithmetic *)

Lemma Qnat_nonneg (n : nat) : (0 <= Qnat n)%Q.
Proof. unfold Qnat, Qle; simpl. lia. Qed.

Lemma Qnat_pos (n : nat) : 0 < n -> (0 < Qnat n)%Q.
Proof. intros H. unfold Qnat, Qlt; simpl. lia. Qed.

Lemma Qnat_eq0 (n : nat) : (Qnat n == 0)%Q -> n = 0.
Proof. unfold Qnat, Qeq; simpl. lia. Qed.


Lemma Qeq_bool_false_neq (x : Q) : ¬ (x == 0)%Q -> Qeq_bool x 0 = false.
Proof.
  intros H. destruct (Qeq_bool x 0) eqn:E; [|done].
  by apply Qeq_bool_iff in E.
Qed.

Lemma Qle_bool_false_pos (x : Q) : (0 < x)%Q -> Qle_bool x 0 = false.
Proof.
  intros H. destruct (Qle_bool x 0) eqn:E; [|done].
  apply Qle_bool_iff in E. by apply Qlt_not_le in H.
Qed.

Lemma Qdiv_pos (x y : Q) : (0 < x)%Q -> (0 < y)%Q -> (0 < x / y)%Q.
Proof.
  intros Hx Hy. unfold Qdiv. apply Qmult_lt_0_compat; [done|].
  by apply Qinv_lt_0_compat.
Qed.

Lemma py_div_ok (x y : Q) : ¬ (y == 0)%Q -> py_div x y = Ok (x / y)%Q.
Proof. intros H. unfold py_div. by rewrite Qeq_bool_false_neq. Qed.


Lemma py_div_not_key (x y : Q) : py_div x y ≠ Raise KeyError.
Proof. unfold py_div. by destruct (Qeq_bool y 0). Qed.

Lemma half_pos (n : nat) : (0 < Qnat n + (1 # 2))%Q.
Proof.
  apply Qlt_le_trans with (0 + (1 # 2))%Q; [done|].
  apply Qplus_le_compat; [apply Qnat_nonneg | apply Qle_refl].
Qed.

Lemma idf_of_ok (ln : Q -> Q) (n d : nat) :
  d <= n ->
  BM25Calculator.idf_of ln n d =
    Ok (ln ((inject_Z (Z.of_nat n - Z.of_nat d)%Z + (1 # 2))
            / (Qnat d + (1 # 2)))%Q).
Proof.
  intros Hd. unfold BM25Calculator.idf_of.
  pose proof (half_pos d) as Hden.
  assert (0 < inject_Z (Z.of_nat n - Z.of_nat d) + (1 # 2))%Q as Hnum.
  { apply Qlt_le_trans with (0 + (1 # 2))%Q; [done|].
    apply Qplus_le_compat; [|apply Qle_refl].
    unfold Qle; simpl. lia. }
  rewrite py_div_ok; [|intros E; rewrite E in Hden; by apply Qlt_irrefl in Hden].
  simpl. unfold py_log. by rewrite Qle_bool_false_pos; [|apply Qdiv_pos].
Qed.

(** ** Lists, counters and loops *)

Lemma docs_containing_le (t : string) (docs : list (list string)) :
  docs_containing t docs <= length docs.
Proof. unfold docs_containing. apply length_filter. Qed.

Lemma py_sum_from (l : list nat) (a : nat) : foldl Nat.add a l = a + py_sum l.
Proof.
  unfold py_sum. revert a. induction l as [|x l IH]; intros a; simpl; [lia|].
  rewrite (IH (a + x)), (IH x). lia.
Qed.

Lemma py_sum_cons (x : nat) (l : list nat) : py_sum (x :: l) = x + py_sum l.
Proof. unfold py_sum at 1. simpl. apply py_sum_from. Qed.

Lemma py_sum_lookup_le (l : list nat) (i x : nat) :
  l !! i = Some x -> x <= py_sum l.
Proof.
  revert i. induction l as [|y l IH]; intros [|i] H; simplify_eq/=;
    rewrite py_sum_cons; [lia|]. apply IH in H. lia.
Qed.

Lemma py_count_cons (t u : string) (l : list string) :
  py_count t (u :: l) = (if decide (u = t) then 1 else 0) + py_count t l.
Proof. unfold py_count. rewrite filter_cons. by case_decide. Qed.

Lemma Counter_from (l : list string) (m : gmap string nat) (t : string) :
  py_get0 (foldl (fun m u => <[u := S (py_get0 m u)]> m) m l) t
  = py_get0 m t + py_count t l.
Proof.
  revert m. induction l as [|u l IH]; intros m; simpl.
  - unfold py_count. simpl. lia.
  - rewrite IH, py_count_cons. unfold py_get0.
    destruct (decide (u = t)) as [->|Hne].
    + rewrite lookup_insert_eq. simpl. lia.
    + rewrite lookup_insert_ne by done. lia.
Qed.

(** [Counter(tokens).get(t, 0)] is the number of occurrences of [t]. *)
Lemma Counter_get (l : list string) (t : string) :
  py_get0 (Counter l) t = py_count t l.
Proof. unfold Counter. rewrite Counter_from. unfold py_get0. by rewrite lookup_empty. Qed.


Lemma vocab_fold_elem (processed : list (list string)) (v : gset string) (t : string) :
  t ∈ foldl (fun v tokens => v ∪ list_to_set tokens) v processed
  <-> t ∈ v ∨ ∃ tokens, tokens ∈ processed ∧ t ∈ tokens.
Proof.
  revert v. induction processed as [|d l IH]; intros v; simpl.
  - split; [auto|]. intros [?|(?&?%elem_of_nil&_)]; done.
  - rewrite IH. rewrite elem_of_union. rewrite elem_of_list_to_set. split.
    + intros [[?|?]|(d'&?&?)].
      * by left.
      * right. exists d. split; [by left|done].
      * right. exists d'. split; [by right|done].
    + intros [?|(d'&Hd&?)]; [by left; left|].
      apply elem_of_cons in Hd as [->|?]; [by left; right|].
      right. by exists d'.
Qed.

Lemma idf_fold_lookup {V} (f : string -> V) (l : list string) (m : gmap string V) (t : string) :
  foldl (fun m u => <[u := f u]> m) m l !! t
  = if decide (t ∈ l) then Some (f t) else m !! t.
Proof.
  revert m. induction l as [|u l IH]; intros m.
  - simpl. destruct (decide (t ∈ [])) as [H|]; [by apply elem_of_nil in H|done].
  - cbn [foldl]. rewrite IH. destruct (decide (t ∈ l)) as [Hin|Hnin].
    + rewrite decide_True; [done|by right].
    + destruct (decide (u = t)) as [->|Hne].
      * rewrite lookup_insert_eq. rewrite decide_True; [done|by left].
      * rewrite lookup_insert_ne by done.
        rewrite decide_False; [done|].
        intros Hc. apply elem_of_cons in Hc as [->|?]; done.
Qed.
(** ** [BM25Calculator.fit] in closed form *)

Lemma bm25_fit_loop_tokens (docs : list string) (s : BM25Calculator.t) :
  for_each docs (fun doc =>
    let tokens := preprocess_text doc in
    modify (fun s => BM25Calculator.set_doc_lengths
                       (BM25Calculator.doc_lengths s ++ [length tokens]) s);;
    modify (fun s => BM25Calculator.set_vocabulary
                       (BM25Calculator.vocabulary s ∪ list_to_set tokens) s)) s
  = (Ok tt,
     BM25Calculator.set_vocabulary
       (foldl (fun v tokens => v ∪ list_to_set tokens)
              (BM25Calculator.vocabulary s) (preprocess_text <$> docs))
       (BM25Calculator.set_doc_lengths
          (BM25Calculator.doc_lengths s ++ (length <$> (preprocess_text <$> docs))) s)).
Proof.
  revert s. induction docs as [|doc docs IH]; intros [k b ds ls a v fs idf n].
  - simpl. unfold BM25Calculator.set_vocabulary, BM25Calculator.set_doc_lengths.
    simpl. by rewrite app_nil_r.
  - cbn [for_each]. unfold mbind at 1, M_bind at 1.
    unfold mbind at 1, M_bind at 1, modify at 1 2. cbn beta iota.
    rewrite IH. simpl.
    unfold BM25Calculator.set_vocabulary, BM25Calculator.set_doc_lengths. simpl.
    by rewrite <- app_assoc.
Qed.

Lemma bm25_fit_loop_freqs (processed : list (list string)) (s : BM25Calculator.t) :
  for_each processed (fun tokens =>
    modify (fun s => BM25Calculator.set_doc_term_freqs
                       (BM25Calculator.doc_term_freqs s ++ [Counter tokens]) s)) s
  = (Ok tt,
     BM25Calculator.set_doc_term_freqs
       (BM25Calculator.doc_term_freqs s ++ (Counter <$> processed)) s).
Proof.
  revert s. induction processed as [|d l IH]; intros [k b ds ls a v fs idf n].
  - simpl. unfold BM25Calculator.set_doc_term_freqs. simpl. by rewrite app_nil_r.
  - cbn [for_each]. unfold mbind at 1, M_bind at 1, modify at 1. cbn beta iota.
    rewrite IH. unfold BM25Calculator.set_doc_term_freqs. simpl.
    by rewrite <- app_assoc.
Qed.

Lemma bm25_idf_loop (ln : Q -> Q) (processed : list (list string))
    (l : list string) (s : BM25Calculator.t) :
  BM25Calculator.N s = length processed ->
  for_each l (fun term =>
    let doc_count := docs_containing term processed in
    n ← gets BM25Calculator.N;
    idf ← lift (BM25Calculator.idf_of ln n doc_count);
    modify (fun s => BM25Calculator.set_idf_scores
                       (<[term := idf]> (BM25Calculator.idf_scores s)) s)) s
  = (Ok tt,
     BM25Calculator.set_idf_scores
       (foldl (fun m t =>
           <[t := ln ((inject_Z (Z.of_nat (length processed)
                                 - Z.of_nat (docs_containing t processed))%Z
                       + (1 # 2))
                      / (Qnat (docs_containing t processed) + (1 # 2)))%Q]> m)
          (BM25Calculator.idf_scores s) l) s).
Proof.
  revert s. induction l as [|t l IH]; intros [k b ds ls a v fs idf n] Hn.
  - done.
  - simpl in Hn. subst n. cbn [for_each].
    unfold mbind at 1, M_bind at 1. unfold mbind at 1, M_bind at 1.
    unfold gets at 1. cbn beta iota. cbn [BM25Calculator.N].
    unfold mbind at 1, M_bind at 1, lift at 1.
    rewrite idf_of_ok by apply docs_containing_le.
    unfold modify at 1. cbn beta iota.
    rewrite IH by done. done.
Qed.

Lemma bm25_fit_empty (ln : Q -> Q) (s : BM25Calculator.t) :
  BM25Calculator.fit ln [] s
  = (Raise ZeroDivisionError,
     BM25Calculator.set_doc_lengths []
       (BM25Calculator.set_N 0 (BM25Calculator.set_documents [] s))).
Proof. by destruct s. Qed.

Lemma bm25_fit_nonempty (ln : Q -> Q) (docs : list string) (s : BM25Calculator.t) :
  docs ≠ [] ->
  BM25Calculator.fit ln docs s = (Ok tt, bm25_fitted ln docs s).
Proof.
  intros Hne. destruct s as [k b ds ls a v fs idf n].
  unfold BM25Calculator.fit.
  unfold mbind at 1, M_bind at 1, modify at 1. cbn beta iota.
  unfold mbind at 1, M_bind at 1, modify at 1. cbn beta iota.
  unfold mbind at 1, M_bind at 1, modify at 1. cbn beta iota.
  unfold mbind at 1, M_bind at 1.
  rewrite bm25_fit_loop_tokens. cbn beta iota zeta.
  unfold mbind at 1, M_bind at 1, gets at 1. cbn beta iota.
  unfold mbind at 1, M_bind at 1, lift at 1.
  unfold BM25Calculator.set_vocabulary, BM25Calculator.set_doc_lengths,
    BM25Calculator.set_N, BM25Calculator.set_documents. cbn.
  rewrite py_div_ok; last first.
  { intros E%Qnat_eq0. rewrite !length_fmap in E.
    destruct docs; [done|]. simpl in E. lia. }
  unfold mbind at 1, M_bind at 1, modify at 1. cbn beta iota.
  unfold mbind at 1, M_bind at 1, modify at 1. cbn beta iota.
  unfold mbind at 1, M_bind at 1.
  rewrite bm25_fit_loop_freqs.
  unfold BM25Calculator._calculate_idf_scores.
  unfold mbind at 1, M_bind at 1, gets at 1.
  unfold BM25Calculator.set_doc_term_freqs, BM25Calculator.set_avg_doc_length. cbn.
  rewrite bm25_idf_loop by (cbn; by rewrite length_fmap).
  unfold bm25_fitted, BM25Calculator.set_idf_scores. cbn.
  by rewrite !length_fmap.
Qed.

Lemma bm25_fit_ok_inv (ln : Q -> Q) (docs : list string) (s0 s : BM25Calculator.t) :
  BM25Calculator.fit ln docs s0 = (Ok tt, s) ->
  docs ≠ [] ∧ s = bm25_fitted ln docs s0.
Proof.
  intros H. destruct docs as [|doc docs].
  - by rewrite bm25_fit_empty in H.
  - rewrite bm25_fit_nonempty in H by done. by simplify_eq.
Qed.

Lemma for_acc_cons {A B} (x : A) (l : list A) (acc : B) (body : B -> A -> result B) :
  for_acc (x :: l) acc body = body acc x ≫= fun acc' => for_acc l acc' body.
Proof. done. Qed.


(** ** Indexing and slicing *)

Lemma py_index_nat {A} (l : list A) (d : nat) (x : A) :
  l !! d = Some x -> py_index l (Z.of_nat d) = Ok x.
Proof.
  intros H. pose proof (lookup_lt_Some _ _ _ H) as Hlt. unfold py_index.
  assert ((Z.of_nat d <? 0)%Z = false) as E1 by (apply Z.ltb_ge; lia).
  assert ((Z.of_nat (length l) <=? Z.of_nat d)%Z = false) as E2 by (apply Z.leb_gt; lia).
  cbn zeta. rewrite E1. rewrite E1, E2. simpl. rewrite Nat2Z.id. by rewrite H.
Qed.

Lemma py_index_neg {A} (l : list A) (i : Z) :
  (- Z.of_nat (length l) <= i < 0)%Z ->
  py_index l i = py_index l (i + Z.of_nat (length l)).
Proof.
  intros H. unfold py_index. cbn zeta.
  assert ((i <? 0)%Z = true) as E1 by (apply Z.ltb_lt; lia).
  assert ((i + Z.of_nat (length l) <? 0)%Z = false) as E2 by (apply Z.ltb_ge; lia).
  rewrite E1, E2. cbn iota. by rewrite E2.
Qed.

Lemma py_index_out {A} (l : list A) (i : Z) :
  (i < - Z.of_nat (length l) ∨ Z.of_nat (length l) <= i)%Z ->
  py_index l i = Raise IndexError.
Proof.
  intros H. unfold py_index. cbn zeta.
  destruct (i <? 0)%Z eqn:E.
  - apply Z.ltb_lt in E.
    assert ((i + Z.of_nat (length l) <? 0)%Z = true) as E2 by (apply Z.ltb_lt; lia).
    by rewrite E2.
  - assert ((Z.of_nat (length l) <=? i)%Z = true) as E2
      by (apply Z.ltb_ge in E; apply Z.leb_le; lia).
    by rewrite E, E2.
Qed.

Lemma py_index_in {A} (l : list A) (i : Z) :
  (- Z.of_nat (length l) <= i < Z.of_nat (length l))%Z ->
  ∃ x, py_index l i = Ok x ∧
       l !! Z.to_nat (if (i <? 0)%Z then i + Z.of_nat (length l) else i)%Z = Some x.
Proof.
  intros H. destruct (i <? 0)%Z eqn:E.
  - apply Z.ltb_lt in E. rewrite py_index_neg by lia.
    destruct (lookup_lt_is_Some_2 l (Z.to_nat (i + Z.of_nat (length l)))) as [x Hx]; [lia|].
    exists x. split; [|done].
    rewrite <- (Z2Nat.id (i + Z.of_nat (length l))) by lia. by apply py_index_nat.
  - apply Z.ltb_ge in E.
    destruct (lookup_lt_is_Some_2 l (Z.to_nat i)) as [x Hx]; [lia|].
    exists x. split; [|done].
    rewrite <- (Z2Nat.id i) by lia. by apply py_index_nat.
Qed.

Lemma py_slice_to_nat {A} (l : list A) (k : nat) :
  py_slice_to l (Z.of_nat k) = take (k `min` length l) l.
Proof.
  unfold py_slice_to.
  assert ((Z.of_nat k <? 0)%Z = false) as -> by (apply Z.ltb_ge; lia).
  rewrite Nat2Z.id. destruct (decide (k <= length l)).
  - by rewrite Nat.min_l.
  - rewrite Nat.min_r by lia. rewrite !take_ge by lia. done.
Qed.

(** ** The fitted state *)

Section Fitted.
Context (ln : Q -> Q) (docs : list string) (s0 : BM25Calculator.t).
Let s := bm25_fitted ln docs s0.

Lemma fitted_tokens_of (d : nat) (doc : string) :
  docs !! d = Some doc -> Formula.tokens_of docs d = preprocess_text doc.
Proof.
  intros H. unfold Formula.tokens_of, Formula.corpus.
  by rewrite list_lookup_fmap, H.
Qed.

Lemma fitted_freq (d : nat) (doc : string) :
  docs !! d = Some doc ->
  BM25Calculator.doc_term_freqs s !! d = Some (Counter (Formula.tokens_of docs d)).
Proof.
  intros H. rewrite (fitted_tokens_of _ _ H). simpl.
  by rewrite !list_lookup_fmap, H.
Qed.

Lemma fitted_length (d : nat) (doc : string) :
  docs !! d = Some doc ->
  BM25Calculator.doc_lengths s !! d = Some (Formula.doc_length docs d).
Proof.
  intros H. unfold Formula.doc_length. rewrite (fitted_tokens_of _ _ H). simpl.
  by rewrite !list_lookup_fmap, H.
Qed.

Lemma fitted_idf_lookup (t : string) :
  BM25Calculator.idf_scores s !! t
  = if decide (t ∈ BM25Calculator.vocabulary s)
    then Some (Formula.idf ln docs t)
    else BM25Calculator.idf_scores s0 !! t.
Proof.
  simpl. rewrite idf_fold_lookup.
  destruct (decide (t ∈ elements _)) as [H|H].
  - apply elem_of_elements in H. by rewrite decide_True.
  - rewrite elem_of_elements in H. by rewrite decide_False.
Qed.

Lemma fitted_idf (t : string) :
  t ∈ BM25Calculator.vocabulary s ->
  py_getitem (BM25Calculator.idf_scores s) t = Ok (Formula.idf ln docs t).
Proof.
  intros H. unfold py_getitem. rewrite fitted_idf_lookup. by rewrite decide_True.
Qed.

Lemma fitted_vocabulary (t : string) :
  t ∈ BM25Calculator.vocabulary s
  <-> t ∈ BM25Calculator.vocabulary s0 ∨ ∃ d, t ∈ Formula.tokens_of docs d.
Proof.
  simpl. rewrite vocab_fold_elem. split; intros [?|H]; [by left| |by left|].
  - right. destruct H as (tokens & Hin & Ht).
    apply list_elem_of_lookup in Hin as [d Hd]. exists d.
    unfold Formula.tokens_of, Formula.corpus. by rewrite Hd.
  - right. destruct H as [d Ht]. unfold Formula.tokens_of, Formula.corpus in Ht.
    destruct (_ !! d) as [tokens|] eqn:E; [|by apply elem_of_nil in Ht].
    exists tokens. split; [|done]. by eapply list_elem_of_lookup_2.
Qed.

Lemma fitted_length_norm (d : nat) :
  ¬ (Formula.avg_doc_length docs == 0)%Q ->
  BM25Calculator.length_norm_of s (Formula.doc_length docs d)
  = Ok (Formula.length_norm (BM25Calculator.b s) docs d).
Proof.
  intros H. unfold BM25Calculator.length_norm_of.
  change (BM25Calculator.avg_doc_length s) with (Formula.avg_doc_length docs).
  by rewrite py_div_ok.
Qed.

Lemma fitted_term_score_of (t : string) (d : nat) :
  ¬ (Qnat (Formula.tf docs t d)
     + BM25Calculator.k1 s * Formula.length_norm (BM25Calculator.b s) docs d == 0)%Q ->
  BM25Calculator.term_score_of s
    (py_get0 (Counter (Formula.tokens_of docs d)) t)
    (Formula.idf ln docs t) (Formula.length_norm (BM25Calculator.b s) docs d)
  = Ok (Formula.term_score ln (BM25Calculator.k1 s) (BM25Calculator.b s) docs t d).
Proof.
  intros Hden. unfold BM25Calculator.term_score_of. rewrite Counter_get.
  by rewrite py_div_ok.
Qed.

(** The loop of [calculate_bm25_score]. *)
Lemma fitted_score_loop (d : nat) (tokens : list string) (acc : Q) :
  (∀ t, t ∈ tokens -> t ∈ BM25Calculator.vocabulary s ->
        Formula.divisors_nonzero (BM25Calculator.k1 s) (BM25Calculator.b s) docs t d) ->
  for_acc tokens acc (fun score term =>
    if decide (term ∈ BM25Calculator.vocabulary s) then
      let tf := py_get0 (Counter (Formula.tokens_of docs d)) term in
      idf ← py_getitem (BM25Calculator.idf_scores s) term;
      length_norm ← BM25Calculator.length_norm_of s (Formula.doc_length docs d);
      term_score ← BM25Calculator.term_score_of s tf idf length_norm;
      mret (score + term_score)%Q
    else mret score)
  = Ok (foldl Qplus acc
          ((fun t => Formula.term_score ln (BM25Calculator.k1 s)
                       (BM25Calculator.b s) docs t d) <$>
             filter (fun t => t ∈ BM25Calculator.vocabulary s) tokens)).
Proof.
  match goal with |- context [for_acc _ _ ?f] => set (body := f) end.
  revert acc. induction tokens as [|t tokens IH]; intros acc Hdef; [done|].
  rewrite for_acc_cons, filter_cons. unfold body at 2. cbn beta.
  destruct (decide (t ∈ BM25Calculator.vocabulary s)) as [Hv|Hv].
  - destruct (Hdef t) as [Havg Hden]; [by left|done|].
    cbn zeta. rewrite fitted_idf by done. cbn [mbind result_bind].
    rewrite fitted_length_norm by done. cbn [mbind result_bind].
    rewrite fitted_term_score_of by done. cbn [mbind result_bind mret result_ret].
    rewrite IH; [done|]. intros u Hu. apply Hdef. by right.
  - cbn [mbind result_bind mret result_ret].
    rewrite IH; [done|]. intros u Hu. apply Hdef. by right.
Qed.

Lemma fitted_score (query : string) (d : nat) :
  d < length docs ->
  (∀ t, t ∈ preprocess_text query -> t ∈ BM25Calculator.vocabulary s ->
        Formula.divisors_nonzero (BM25Calculator.k1 s) (BM25Calculator.b s) docs t d) ->
  BM25Calculator.calculate_bm25_score query (Z.of_nat d) s
  = Ok (Formula.score ln (BM25Calculator.k1 s) (BM25Calculator.b s) docs
          (BM25Calculator.vocabulary s) query d).
Proof.
  intros Hd Hdef. destruct (lookup_lt_is_Some_2 docs d Hd) as [doc Hdoc].
  unfold BM25Calculator.calculate_bm25_score. cbn zeta.
  rewrite (py_index_nat _ _ _ (fitted_freq _ _ Hdoc)). cbn [mbind result_bind].
  rewrite (py_index_nat _ _ _ (fitted_length _ _ Hdoc)). cbn [mbind result_bind].
  by rewrite fitted_score_loop.
Qed.
End Fitted.

(** ** When the divisions of the formula are defined *)

Lemma convex_pos (b r : Q) : (0 <= b)%Q -> (b <= 1)%Q -> (0 < r)%Q -> (0 < 1 - b + b * r)%Q.
Proof.
  intros Hb0 Hb1 Hr. destruct (Qlt_le_dec r 1) as [Hlt|Hge].
  - assert (0 <= (1 - b) * (1 - r))%Q as H
      by (apply Qmult_le_0_compat; lra).
    assert ((1 - b) * (1 - r) == 1 - b - r + b * r)%Q as E by ring.
    rewrite E in H. lra.
  - assert (0 <= b * (r - 1))%Q as H by (apply Qmult_le_0_compat; lra).
    assert (b * (r - 1) == b * r - b)%Q as E by ring.
    rewrite E in H. lra.
Qed.

Lemma avg_doc_length_pos (docs : list string) (d : nat) :
  Formula.tokens_of docs d ≠ [] -> (0 < Formula.avg_doc_length docs)%Q.
Proof.
  intros H. unfold Formula.tokens_of in H.
  destruct (Formula.corpus docs !! d) as [tokens|] eqn:E; [|done].
  simpl in H. unfold Formula.avg_doc_length. apply Qdiv_pos; apply Qnat_pos.
  - assert (length tokens <= py_sum (length <$> Formula.corpus docs)) as Hle.
    { apply py_sum_lookup_le with d. by rewrite list_lookup_fmap, E. }
    destruct tokens; [done|]. simpl in Hle. lia.
  - apply lookup_lt_Some in E. lia.
Qed.

Lemma length_norm_pos (b : Q) (docs : list string) (d : nat) :
  (0 <= b)%Q -> (b <= 1)%Q -> Formula.tokens_of docs d ≠ [] ->
  (0 < Formula.length_norm b docs d)%Q.
Proof.
  intros Hb0 Hb1 H. unfold Formula.length_norm. apply convex_pos; [done..|].
  apply Qdiv_pos; [|by apply avg_doc_length_pos with d].
  apply Qnat_pos. unfold Formula.doc_length. destruct (Formula.tokens_of docs d); [done|].
  simpl. lia.
Qed.

(** With [k1 > 0] and [b] in [[0,1]], every term score of a document that
    has a token is defined. *)
Lemma divisors_nonzero_valid (k1 b : Q) (docs : list string) (t : string) (d : nat) :
  (0 < k1)%Q -> (0 <= b)%Q -> (b <= 1)%Q -> Formula.tokens_of docs d ≠ [] ->
  Formula.divisors_nonzero k1 b docs t d.
Proof.
  intros Hk Hb0 Hb1 H. split.
  - intros E. pose proof (avg_doc_length_pos docs d H) as Hp.
    rewrite E in Hp. by apply Qlt_irrefl in Hp.
  - intros E.
    assert (0 < k1 * Formula.length_norm b docs d)%Q as Hp
      by (apply Qmult_lt_0_compat; [done|by apply length_norm_pos]).
    pose proof (Qnat_nonneg (Formula.tf docs t d)). lra.
Qed.

(** ** The stable sort *)

Section SortFacts.
Context {A : Type} (key : A -> Q).

Lemma insert_desc_perm (x : A) (l : list A) : insert_desc key x l ≡ₚ x :: l.
Proof.
  induction l as [|y l IH]; [done|]. simpl.
  destruct (Qle_bool (key y) (key x)); [done|].
  rewrite IH. apply Permutation_swap.
Qed.

Lemma sort_desc_perm (l : list A) : sort_desc key l ≡ₚ l.
Proof.
  induction l as [|x l IH]; [done|]. simpl.
  rewrite insert_desc_perm. by rewrite IH.
Qed.

Lemma sort_desc_length (l : list A) : length (sort_desc key l) = length l.
Proof. apply Permutation_length, sort_desc_perm. Qed.

Lemma insert_desc_key_ge (x : A) (l : list A) :
  StronglySorted (key_ge key) l -> StronglySorted (key_ge key) (insert_desc key x l).
Proof.
  induction 1 as [|y l Hs IH Hall]; simpl; [repeat constructor|].
  destruct (Qle_bool (key y) (key x)) eqn:E.
  - apply Qle_bool_iff in E. constructor; [by constructor|].
    constructor; [done|]. eapply Forall_impl; [exact Hall|].
    intros z Hz. unfold key_ge in *. by apply Qle_trans with (key y).
  - constructor; [done|]. rewrite insert_desc_perm. constructor; [|done].
    unfold key_ge. apply Qlt_le_weak, Qnot_le_lt. intros Hle.
    apply Qle_bool_iff in Hle. congruence.
Qed.

Lemma sort_desc_key_ge (l : list A) : StronglySorted (key_ge key) (sort_desc key l).
Proof.
  induction l as [|x l IH]; simpl; [constructor|]. by apply insert_desc_key_ge.
Qed.

(** Stability: elements that come in increasing [idx] keep that order
    among equal keys. *)
Context (idx : A -> nat).

Lemma stable_before_key_ge (x y : A) : stable_before key idx x y -> key_ge key x y.
Proof.
  intros [H|[H _]]; unfold key_ge; [by apply Qlt_le_weak|].
  rewrite H. apply Qle_refl.
Qed.

Lemma insert_desc_stable (x : A) (l : list A) :
  StronglySorted (stable_before key idx) l ->
  Forall (fun y => idx x < idx y) l ->
  StronglySorted (stable_before key idx) (insert_desc key x l).
Proof.
  induction 1 as [|y l Hs IH Hall]; intros Hidx; simpl; [repeat constructor|].
  apply Forall_cons in Hidx as [Hy Hidx].
  destruct (Qle_bool (key y) (key x)) eqn:E.
  - apply Qle_bool_iff in E. constructor; [by constructor|].
    assert (∀ z, (key z <= key x)%Q -> idx x < idx z -> stable_before key idx x z) as Hsb.
    { intros z Hz Hi. apply Qle_lt_or_eq in Hz as [?|?]; [by left|by right]. }
    constructor; [by apply Hsb|].
    apply Forall_forall. intros z Hz. apply Hsb.
    + apply Qle_trans with (key y); [|done].
      apply stable_before_key_ge. by eapply Forall_forall in Hall.
    + by eapply Forall_forall in Hidx.
  - constructor; [by apply IH|]. rewrite insert_desc_perm. constructor; [|done].
    left. apply Qnot_le_lt. intros Hle. apply Qle_bool_iff in Hle. congruence.
Qed.

Lemma sort_desc_stable (l : list A) :
  StronglySorted (fun x y => idx x < idx y) l ->
  StronglySorted (stable_before key idx) (sort_desc key l).
Proof.
  induction 1 as [|x l Hs IH Hall]; simpl; [constructor|].
  apply insert_desc_stable; [done|]. by rewrite sort_desc_perm.
Qed.
End SortFacts.

(** ** Ranking *)

Section Ranking.
Context (ln : Q -> Q) (docs : list string) (s0 : BM25Calculator.t).
Let s := bm25_fitted ln docs s0.
Let k1 := BM25Calculator.k1 s.
Let b := BM25Calculator.b s.
Let vocab := BM25Calculator.vocabulary s.





End Ranking.


(** C4: after a successful fit, the score of a document for a query is the
    sum, over the query tokens that are in the vocabulary (one summand per
    occurrence), of idf(t) * (tf * (k1 + 1)) / (tf + k1 * length_norm), with
    idf(t) = ln((N - df + 0.5) / (df + 0.5)); tokens outside the vocabulary
    are skipped.  The divisors of the summed terms are assumed non-zero. *)
Theorem calculate_bm25_score_formula (ln : Q -> Q) (docs : list string)
    (s0 s : BM25Calculator.t) (query : string) (d : nat) :
  BM25Calculator.fit ln docs s0 = (Ok tt, s) ->
  d < length docs ->
  (∀ t, t ∈ preprocess_text query -> t ∈ BM25Calculator.vocabulary s ->
        Formula.divisors_nonzero (BM25Calculator.k1 s) (BM25Calculator.b s) docs t d) ->
  BM25Calculator.calculate_bm25_score query (Z.of_nat d) s
  = Ok (Formula.score ln (BM25Calculator.k1 s) (BM25Calculator.b s) docs
          (BM25Calculator.vocabulary s) query d).
Proof.
  intros [_ ->]%bm25_fit_ok_inv Hd Hdef. by apply fitted_score.
Qed.

Lemma calculate_bm25_score_formula_witness :
  BM25Calculator.calculate_bm25_score "Cat dog zebra cat" 0 demo_fitted
  = Ok (Formula.score ln_approx k1_default b_default demo_docs
          (BM25Calculator.vocabulary demo_fitted) "Cat dog zebra cat" 0).
Proof.
  apply (calculate_bm25_score_formula ln_approx demo_docs demo_new demo_fitted
           "Cat dog zebra cat" 0).
  - vm_compute. reflexivity.
  - simpl. lia.
  - intros t _ _. apply divisors_nonzero_valid; vm_compute; congruence.
Defined.



(** ** Keywords *)

Section Keywords.
Context (ln : Q -> Q) (docs : list string) (s0 : BM25Calculator.t).
Let s := bm25_fitted ln docs s0.
Let k1 := BM25Calculator.k1 s.
Let b := BM25Calculator.b s.
Let vocab := BM25Calculator.vocabulary s.
Context (Hk1 : (0 < k1)%Q) (Hb0 : (0 <= b)%Q) (Hb1 : (b <= 1)%Q).

Lemma tf_pos_tokens (t : string) (d : nat) :
  0 < Formula.tf docs t d -> Formula.tokens_of docs d ≠ [].
Proof.
  unfold Formula.tf. intros H E. rewrite E in H. unfold py_count in H.
  simpl in H. lia.
Qed.

(** The inner loop of [get_top_keywords]. *)
Lemma fitted_contribution_loop (t : string) (a n : nat) (acc : Q * nat) :
  t ∈ vocab -> a + n <= length docs ->
  for_acc (seq a n) acc (fun acc doc_idx =>
    freq ← py_index (BM25Calculator.doc_term_freqs s) (Z.of_nat doc_idx);
    let tf := py_get0 freq t in
    if (0 <? tf)%nat then
      idf ← py_getitem (BM25Calculator.idf_scores s) t;
      doc_length ← py_index (BM25Calculator.doc_lengths s) (Z.of_nat doc_idx);
      length_norm ← BM25Calculator.length_norm_of s doc_length;
      term_score ← BM25Calculator.term_score_of s tf idf length_norm;
      mret ((acc.1 + term_score)%Q, S acc.2)
    else mret acc)
  = Ok (foldl Qplus acc.1
          (Formula.term_score ln k1 b docs t <$>
             filter (fun d => 0 < Formula.tf docs t d) (seq a n)),
        acc.2 + length (filter (fun d => 0 < Formula.tf docs t d) (seq a n))).
Proof.
  intros Hv. unfold k1, b, vocab, s in *.
  match goal with |- context [for_acc _ _ ?f] => set (body := f) end.
  revert a acc. induction n as [|n IH]; intros a [total cnt] Hn.
  - simpl. by rewrite Nat.add_0_r.
  - cbn [seq]. rewrite for_acc_cons, filter_cons. unfold body at 2. cbn beta.
    destruct (lookup_lt_is_Some_2 docs a) as [doc Hdoc]; [lia|].
    rewrite (py_index_nat _ _ _ (fitted_freq ln docs s0 _ _ Hdoc)).
    cbn [mbind result_bind]. cbn zeta. rewrite Counter_get.
    change (py_count t (Formula.tokens_of docs a)) with (Formula.tf docs t a).
    destruct (decide (0 < Formula.tf docs t a)) as [Htf|Htf].
    + assert ((0 <? Formula.tf docs t a)%nat = true) as -> by by apply Nat.ltb_lt.
      destruct (divisors_nonzero_valid
                  (BM25Calculator.k1 (bm25_fitted ln docs s0))
                  (BM25Calculator.b (bm25_fitted ln docs s0)) docs t a)
        as [Havg Hden]; [done..|by apply tf_pos_tokens with t|].
      rewrite fitted_idf by done. cbn [mbind result_bind].
      rewrite (py_index_nat _ _ _ (fitted_length ln docs s0 _ _ Hdoc)).
      cbn [mbind result_bind].
      rewrite fitted_length_norm by done. cbn [mbind result_bind].
      unfold BM25Calculator.term_score_of. rewrite py_div_ok by done.
      cbn [mbind result_bind mret result_ret].
      rewrite IH by lia. simpl. do 2 f_equal. lia.
    + assert ((0 <? Formula.tf docs t a)%nat = false) as -> by by apply Nat.ltb_ge; lia.
      cbn [mbind result_bind mret result_ret]. by rewrite IH by lia.
Qed.

Lemma fitted_contribution (t : string) :
  t ∈ vocab ->
  BM25Calculator.term_contribution t s
  = Ok (foldl Qplus 0%Q (Formula.term_score ln k1 b docs t <$> Formula.containing docs t),
        length (Formula.containing docs t)).
Proof.
  intros Hv. unfold BM25Calculator.term_contribution.
  change (BM25Calculator.documents s) with docs.
  unfold k1, b, vocab, s in *. by rewrite fitted_contribution_loop.
Qed.

(** The outer loop of [get_top_keywords]. *)
Lemma fitted_keywords_loop (l : list string) (acc : list (string * Q)) :
  for_acc l acc (fun term_scores term =>
    if decide (term ∈ BM25Calculator.vocabulary s) then
      c ← BM25Calculator.term_contribution term s;
      if (0 <? c.2)%nat then
        avg_score ← py_div c.1 (Qnat c.2);
        mret (term_scores ++ [(term, avg_score)])
      else mret term_scores
    else mret term_scores)
  = Ok (acc ++ ((fun t => (t, Formula.mean_score ln k1 b docs t)) <$>
                  filter (fun t => t ∈ vocab ∧ Formula.containing docs t ≠ []) l)).
Proof.
  unfold k1, b, vocab, s in *.
  match goal with |- context [for_acc _ _ ?f] => set (body := f) end.
  revert acc. induction l as [|t l IH]; intros acc.
  - simpl. by rewrite app_nil_r.
  - rewrite for_acc_cons, filter_cons. unfold body at 2. cbn beta.
    destruct (decide (t ∈ BM25Calculator.vocabulary (bm25_fitted ln docs s0))) as [Hv|Hv].
    + rewrite fitted_contribution by done. cbn [mbind result_bind]. cbn [fst snd].
      destruct (Formula.containing docs t) as [|d ds] eqn:E.
      * simpl. rewrite decide_False by (intros [_ ?]; done). apply IH.
      * rewrite decide_True by done.
        assert ((0 <? length (d :: ds))%nat = true) as -> by done.
        rewrite py_div_ok; last first.
        { intros H%Qnat_eq0. done. }
        cbn [mbind result_bind mret result_ret]. rewrite IH.
        rewrite fmap_cons, <- app_assoc. simpl.
        unfold Formula.mean_score. by rewrite E.
    + rewrite decide_False by (intros [? _]; done).
      cbn [mbind result_bind mret result_ret]. apply IH.
Qed.

Lemma fitted_top_keywords (query : string) (k : Z) :
  BM25Calculator.get_top_keywords query k s
  = Ok (py_slice_to (sort_desc snd (Formula.keyword_means ln k1 b docs vocab query)) k).
Proof.
  unfold BM25Calculator.get_top_keywords. cbn zeta.
  unfold k1, b, vocab, s in *. by rewrite fitted_keywords_loop.
Qed.
End Keywords.

Lemma containing_nonempty (docs : list string) (t : string) :
  Formula.containing docs t ≠ [] <-> ∃ d, d < length docs ∧ 0 < Formula.tf docs t d.
Proof.
  unfold Formula.containing, Formula.doc_count. split.
  - intros H. destruct (filter _ _) as [|d l] eqn:E; [done|].
    assert (d ∈ filter (fun d => 0 < Formula.tf docs t d) (seq 0 (length docs))) as Hd
      by (rewrite E; by left).
    apply list_elem_of_filter in Hd as [Htf Hd]. apply elem_of_seq in Hd.
    exists d. split; [lia|done].
  - intros (d & Hd & Htf) E.
    assert (d ∈ filter (fun d => 0 < Formula.tf docs t d) (seq 0 (length docs))) as Hin.
    { apply list_elem_of_filter. split; [done|]. apply elem_of_seq. lia. }
    rewrite E in Hin. by apply elem_of_nil in Hin.
Qed.

Lemma keyword_means_elem (ln : Q -> Q) (k1 b : Q) (docs : list string)
    (vocab : gset string) (query : string) (t : string) (m : Q) :
  (t, m) ∈ Formula.keyword_means ln k1 b docs vocab query
  <-> t ∈ preprocess_text query ∧ t ∈ vocab ∧
      (∃ d, d < length docs ∧ 0 < Formula.tf docs t d) ∧
      m = Formula.mean_score ln k1 b docs t.
Proof.
  unfold Formula.keyword_means. rewrite list_elem_of_fmap. split.
  - intros (u & [= -> ->] & Hu). apply list_elem_of_filter in Hu as [[Hv Hc] Hu].
    apply elem_of_elements, elem_of_list_to_set in Hu.
    by rewrite <- containing_nonempty.
  - intros (Hq & Hv & Hd & ->). exists t. split; [done|].
    apply list_elem_of_filter. split.
    + split; [done|]. by apply containing_nonempty.
    + by apply elem_of_elements, elem_of_list_to_set.
Qed.

Lemma keyword_means_NoDup (ln : Q -> Q) (k1 b : Q) (docs : list string)
    (vocab : gset string) (query : string) :
  NoDup (Formula.keyword_means ln k1 b docs vocab query).*1.
Proof.
  unfold Formula.keyword_means. rewrite <- list_fmap_compose.
  change (fst ∘ _) with (@id string).
  rewrite list_fmap_id. apply NoDup_filter, NoDup_elements.
Qed.

Lemma take_min_length {A} (l : list A) (k : nat) : take (k `min` length l) l = take k l.
Proof.
  destruct (decide (k <= length l)); [by rewrite Nat.min_l|].
  rewrite Nat.min_r by lia. by rewrite !take_ge by lia.
Qed.

(** C9: after a successful fit with [k1 > 0] and [b] in [[0,1]],
    [get_top_keywords] gives each distinct query term that is in the
    vocabulary and occurs in some document the arithmetic mean of its term
    score over the documents in which its frequency is non-zero (the other
    documents enter neither the sum nor the divisor; a term that occurs in no
    document is left out), and returns the first [top_k] of these pairs
    sorted by that mean, descending. *)
Theorem get_top_keywords_mean (ln : Q -> Q) (docs : list string)
    (s0 s : BM25Calculator.t) (query : string) (k : nat) :
  BM25Calculator.fit ln docs s0 = (Ok tt, s) ->
  (0 < BM25Calculator.k1 s)%Q ->
  (0 <= BM25Calculator.b s)%Q -> (BM25Calculator.b s <= 1)%Q ->
  ∃ K, BM25Calculator.get_top_keywords query (Z.of_nat k) s = Ok (take k K) ∧
       StronglySorted (key_ge snd) K ∧
       NoDup K.*1 ∧
       ∀ t m, (t, m) ∈ K <->
              t ∈ preprocess_text query ∧ t ∈ BM25Calculator.vocabulary s ∧
              (∃ d, d < length docs ∧ 0 < Formula.tf docs t d) ∧
              m = Formula.mean_score ln (BM25Calculator.k1 s) (BM25Calculator.b s) docs t.
Proof.
  intros [_ ->]%bm25_fit_ok_inv Hk1 Hb0 Hb1.
  eexists. split; [|split; [|split]].
  - rewrite fitted_top_keywords by done. by rewrite py_slice_to_nat, take_min_length.
  - apply sort_desc_key_ge.
  - rewrite sort_desc_perm. apply keyword_means_NoDup.
  - intros t m. rewrite sort_desc_perm. apply keyword_means_elem.
Qed.

Lemma get_top_keywords_mean_witness :
  ∃ K, BM25Calculator.get_top_keywords "cat The zebra dog cat" (Z.of_nat 2) demo_fitted
       = Ok (take 2 K) ∧
       StronglySorted (key_ge snd) K ∧
       NoDup K.*1 ∧
       ∀ t m, (t, m) ∈ K <->
              t ∈ preprocess_text "cat The zebra dog cat" ∧
              t ∈ BM25Calculator.vocabulary demo_fitted ∧
              (∃ d, d < length demo_docs ∧ 0 < Formula.tf demo_docs t d) ∧
              m = Formula.mean_score ln_approx (BM25Calculator.k1 demo_fitted)
                    (BM25Calculator.b demo_fitted) demo_docs t.
Proof.
  apply (get_top_keywords_mean ln_approx demo_docs demo_new demo_fitted
           "cat The zebra dog cat" 2).
  - vm_compute. reflexivity.
  - vm_compute. reflexivity.
  - vm_compute. congruence.
  - vm_compute. congruence.
Defined.

(** ** [TFIDFCalculator.fit] in closed form *)

Lemma calculate_idf_ok (ln : Q -> Q) (t : string) (processed : list (list string)) :
  TFIDFCalculator.calculate_idf ln t processed = Ok (tfidf_idf_value ln t processed).
Proof.
  unfold TFIDFCalculator.calculate_idf, tfidf_idf_value. cbn zeta.
  destruct (docs_containing t processed =? 0)%nat eqn:E; [done|].
  apply Nat.eqb_neq in E. pose proof (docs_containing_le t processed) as Hle.
  assert (0 < Qnat (docs_containing t processed))%Q as Hd by (apply Qnat_pos; lia).
  rewrite py_div_ok; [|intros Hz; rewrite Hz in Hd; by apply Qlt_irrefl in Hd].
  cbn [mbind result_bind]. unfold py_log.
  rewrite Qle_bool_false_pos; [done|]. apply Qdiv_pos; [|done]. apply Qnat_pos. lia.
Qed.

Lemma tfidf_fit_loop_vocab (ds : list (list string)) (s : TFIDFCalculator.t) :
  for_each ds (fun doc =>
    modify (fun s => TFIDFCalculator.mk (TFIDFCalculator.documents s)
                       (TFIDFCalculator.vocabulary s ∪ list_to_set doc)
                       (TFIDFCalculator.idf_scores s))) s
  = (Ok tt,
     TFIDFCalculator.mk (TFIDFCalculator.documents s)
       (foldl (fun v tokens => v ∪ list_to_set tokens) (TFIDFCalculator.vocabulary s) ds)
       (TFIDFCalculator.idf_scores s)).
Proof.
  revert s. induction ds as [|d ds IH]; intros [docs v idf]; [done|].
  cbn [for_each]. unfold mbind at 1, M_bind at 1, modify at 1. cbn beta iota.
  by rewrite IH.
Qed.

Lemma tfidf_fit_loop_idf (ln : Q -> Q) (l : list string) (s : TFIDFCalculator.t) :
  for_each l (fun term =>
    ds ← gets TFIDFCalculator.documents;
    idf ← lift (TFIDFCalculator.calculate_idf ln term ds);
    modify (fun s => TFIDFCalculator.mk (TFIDFCalculator.documents s)
                       (TFIDFCalculator.vocabulary s)
                       (<[term := idf]> (TFIDFCalculator.idf_scores s)))) s
  = (Ok tt,
     TFIDFCalculator.mk (TFIDFCalculator.documents s) (TFIDFCalculator.vocabulary s)
       (foldl (fun m t => <[t := tfidf_idf_value ln t (TFIDFCalculator.documents s)]> m)
              (TFIDFCalculator.idf_scores s) l)).
Proof.
  revert s. induction l as [|t l IH]; intros [docs v idf]; [done|].
  cbn [for_each]. unfold mbind at 1, M_bind at 1.
  unfold mbind at 1, M_bind at 1, gets at 1. cbn beta iota.
  unfold mbind at 1, M_bind at 1, lift at 1. cbn [TFIDFCalculator.documents].
  rewrite calculate_idf_ok. unfold modify at 1. cbn beta iota.
  by rewrite IH.
Qed.

Lemma tfidf_fit_closed (ln : Q -> Q) (docs : list string) (s : TFIDFCalculator.t) :
  TFIDFCalculator.fit ln docs s = (Ok tt, tfidf_fitted ln docs s).
Proof.
  destruct s as [ds v idf]. unfold TFIDFCalculator.fit.
  unfold mbind at 1, M_bind at 1, modify at 1. cbn beta iota.
  unfold mbind at 1, M_bind at 1, gets at 1. cbn beta iota.
  unfold mbind at 1, M_bind at 1. cbn [TFIDFCalculator.documents].
  rewrite tfidf_fit_loop_vocab.
  unfold mbind at 1, M_bind at 1, gets at 1. cbn beta iota.
  cbn [TFIDFCalculator.vocabulary TFIDFCalculator.documents TFIDFCalculator.idf_scores].
  by rewrite tfidf_fit_loop_idf.
Qed.

(** ** The vocabulary and the IDF table *)

Lemma idf_fold_dom {V} (f : string -> V) (l : list string) (m : gmap string V) (t : string) :
  t ∈ dom (foldl (fun m u => <[u := f u]> m) m l) <-> t ∈ l ∨ t ∈ dom m.
Proof.
  rewrite !elem_of_dom, idf_fold_lookup. destruct (decide (t ∈ l)) as [H|H].
  - split; [by left|by eauto].
  - split; [by right|]. by intros [?|?].
Qed.

Lemma bm25_fit_covered (ln : Q -> Q) (docs : list string) (s : BM25Calculator.t) :
  bm25_vocab_covered s -> bm25_vocab_covered (BM25Calculator.fit ln docs s).2.
Proof.
  intros Hinv. destruct docs as [|doc docs].
  - rewrite bm25_fit_empty. by destruct s.
  - rewrite bm25_fit_nonempty by done. unfold bm25_vocab_covered. simpl.
    intros t Ht. apply idf_fold_dom. left. by apply elem_of_elements.
Qed.

Lemma tfidf_fit_covered (ln : Q -> Q) (docs : list string) (s : TFIDFCalculator.t) :
  tfidf_vocab_covered (TFIDFCalculator.fit ln docs s).2.
Proof.
  rewrite tfidf_fit_closed. unfold tfidf_vocab_covered. simpl.
  intros t Ht. apply idf_fold_dom. left. by apply elem_of_elements.
Qed.

Lemma bm25_fits_covered (ln : Q -> Q) (corpora : list (list string)) (s : BM25Calculator.t) :
  bm25_vocab_covered s -> bm25_vocab_covered (bm25_fits ln corpora s).
Proof.
  revert s. induction corpora as [|docs corpora IH]; intros s Hs; [done|].
  simpl. by apply IH, bm25_fit_covered.
Qed.

Lemma tfidf_fits_covered (ln : Q -> Q) (corpora : list (list string)) (s : TFIDFCalculator.t) :
  tfidf_vocab_covered s -> tfidf_vocab_covered (tfidf_fits ln corpora s).
Proof.
  revert s. induction corpora as [|docs corpora IH]; intros s Hs; [done|].
  simpl. apply IH, tfidf_fit_covered.
Qed.

Lemma for_acc_not_raise {A B} (e : exn) (l : list A) (acc : B)
    (body : B -> A -> result B) :
  (∀ acc x, x ∈ l -> body acc x ≠ Raise e) -> for_acc l acc body ≠ Raise e.
Proof.
  revert acc. induction l as [|x l IH]; intros acc Hb; [done|].
  rewrite for_acc_cons. destruct (body acc x) as [acc'|e'] eqn:E.
  - simpl. apply IH. intros a y Hy. apply Hb. by right.
  - simpl. intros [= ->]. by apply (Hb acc x); [left|].
Qed.

Lemma py_getitem_covered {V} (m : gmap string V) (t : string) :
  t ∈ dom m -> ∃ v, py_getitem m t = Ok v.
Proof. intros [v Hv]%elem_of_dom. exists v. unfold py_getitem. by rewrite Hv. Qed.

Lemma py_index_not_key {A} (l : list A) (i : Z) : py_index l i ≠ Raise KeyError.
Proof.
  unfold py_index. cbn zeta. destruct (_ || _); [done|]. by destruct (l !! _).
Qed.

Lemma bm25_score_no_KeyError (s : BM25Calculator.t) (query : string) (d : Z) :
  bm25_vocab_covered s ->
  BM25Calculator.calculate_bm25_score query d s ≠ Raise KeyError.
Proof.
  intros Hinv. unfold BM25Calculator.calculate_bm25_score. cbn zeta.
  pose proof (py_index_not_key (BM25Calculator.doc_term_freqs s) d) as H1.
  destruct (py_index (BM25Calculator.doc_term_freqs s) d) as [freq|e]; [|simpl; congruence].
  pose proof (py_index_not_key (BM25Calculator.doc_lengths s) d) as H2.
  destruct (py_index (BM25Calculator.doc_lengths s) d) as [len|e]; [|simpl; congruence].
  cbn [mbind result_bind]. apply for_acc_not_raise. intros acc t _.
  destruct (decide (t ∈ BM25Calculator.vocabulary s)) as [Hv|Hv]; [|done].
  destruct (py_getitem_covered (BM25Calculator.idf_scores s) t) as [v ->]; [by apply Hinv|].
  cbn [mbind result_bind]. unfold BM25Calculator.length_norm_of.
  pose proof (py_div_not_key (Qnat len) (BM25Calculator.avg_doc_length s)) as H3.
  destruct (py_div (Qnat len) (BM25Calculator.avg_doc_length s)) as [r|e]; [|simpl; congruence].
  cbn [mbind result_bind mret result_ret]. unfold BM25Calculator.term_score_of.
  match goal with |- context [py_div ?x ?y] =>
    pose proof (py_div_not_key x y) as H4; destruct (py_div x y) as [r'|e] end;
    [done|simpl; congruence].
Qed.

Lemma tfidf_vector_no_KeyError (s : TFIDFCalculator.t) (text : string) :
  tfidf_vocab_covered s ->
  TFIDFCalculator.calculate_tfidf_vector text s ≠ Raise KeyError.
Proof.
  intros Hinv. unfold TFIDFCalculator.calculate_tfidf_vector.
  destruct (TFIDFCalculator.documents s); [done|]. cbn zeta.
  apply for_acc_not_raise. intros acc t _.
  destruct (decide (t ∈ TFIDFCalculator.vocabulary s)) as [Hv|Hv]; [|done].
  unfold TFIDFCalculator.calculate_tf.
  destruct (length (preprocess_text text) =? 0)%nat.
  - cbn [mbind result_bind].
    by destruct (py_getitem_covered (TFIDFCalculator.idf_scores s) t) as [v ->]; [apply Hinv|].
  - cbn zeta.
    match goal with |- context [py_div ?x ?y] =>
      pose proof (py_div_not_key x y) as H4; destruct (py_div x y) as [r'|e] end;
      [|simpl; congruence].
    cbn [mbind result_bind].
    by destruct (py_getitem_covered (TFIDFCalculator.idf_scores s) t) as [v ->]; [apply Hinv|].
Qed.

(** C10: after any sequence of [fit] calls on a new engine of either kind,
    every term of the vocabulary has an entry in the IDF table, also for the
    terms that the vocabulary has kept from earlier fits, so the lookup of
    the IDF of a vocabulary term during scoring never raises [KeyError]. *)
Theorem vocabulary_has_idf (ln : Q -> Q) (k1 b : Q) (corpora : list (list string)) :
  let s := bm25_fits ln corpora (bm25_new k1 b) in
  let r := tfidf_fits ln corpora tfidf_new in
  BM25Calculator.vocabulary s ⊆ dom (BM25Calculator.idf_scores s) ∧
  (∀ query d, BM25Calculator.calculate_bm25_score query d s ≠ Raise KeyError) ∧
  TFIDFCalculator.vocabulary r ⊆ dom (TFIDFCalculator.idf_scores r) ∧
  (∀ text, TFIDFCalculator.calculate_tfidf_vector text r ≠ Raise KeyError).
Proof.
  intros s r.
  assert (bm25_vocab_covered s) as Hs by (apply bm25_fits_covered; intros t Ht; set_solver).
  assert (tfidf_vocab_covered r) as Hr by (apply tfidf_fits_covered; intros t Ht; set_solver).
  split; [done|]. split; [intros; by apply bm25_score_no_KeyError|].
  split; [done|]. intros; by apply tfidf_vector_no_KeyError.
Qed.

(** ** Fitting an empty corpus *)

(** C1 (as the code has it): a [fit] of an empty corpus is not rejected by a
    check of its own.  On the BM25 engine it raises [ZeroDivisionError] when
    the average length is computed, after [documents], [N] and [doc_lengths]
    have been reset; the other attributes are as before the call.  On the
    TF-IDF engine it does not fail: [documents] becomes empty, the vocabulary
    is kept and the IDF of every term of the vocabulary becomes 0. *)
Theorem fit_empty_behaviour (ln : Q -> Q) (s : BM25Calculator.t) (r : TFIDFCalculator.t) :
  BM25Calculator.fit ln [] s
  = (Raise ZeroDivisionError,
     BM25Calculator.mk (BM25Calculator.k1 s) (BM25Calculator.b s) [] []
       (BM25Calculator.avg_doc_length s) (BM25Calculator.vocabulary s)
       (BM25Calculator.doc_term_freqs s) (BM25Calculator.idf_scores s) 0) ∧
  ∃ r', TFIDFCalculator.fit ln [] r = (Ok tt, r') ∧
        TFIDFCalculator.documents r' = [] ∧
        TFIDFCalculator.vocabulary r' = TFIDFCalculator.vocabulary r ∧
        ∀ t, TFIDFCalculator.idf_scores r' !! t
             = if decide (t ∈ TFIDFCalculator.vocabulary r) then Some 0%Q
               else TFIDFCalculator.idf_scores r !! t.
Proof.
  split; [by rewrite bm25_fit_empty|].
  eexists. split; [apply tfidf_fit_closed|]. split; [done|]. split; [done|].
  intros t. simpl. rewrite idf_fold_lookup.
  destruct (decide (t ∈ elements _)) as [H|H].
  - apply elem_of_elements in H. by rewrite decide_True.
  - rewrite elem_of_elements in H. by rewrite decide_False.
Qed.

Lemma fit_empty_counterexample :
  ¬ (is_ok (BM25Calculator.fit ln_approx [] demo_fitted).1 = false ∧
     (BM25Calculator.fit ln_approx [] demo_fitted).2 = demo_fitted) ∧
  ¬ (is_ok (TFIDFCalculator.fit ln_approx [] demo_tfidf).1 = false ∧
     (TFIDFCalculator.fit ln_approx [] demo_tfidf).2 = demo_tfidf).
Proof.
  split.
  - intros [_ H]. apply (f_equal BM25Calculator.documents) in H.
    vm_compute in H. discriminate H.
  - intros [H _]. vm_compute in H. discriminate H.
Qed.

(** ** Fitting twice *)

Lemma bm25_fit_vocabulary_grows (ln : Q -> Q) (docs : list string) (s : BM25Calculator.t) :
  BM25Calculator.vocabulary s ⊆ BM25Calculator.vocabulary (BM25Calculator.fit ln docs s).2.
Proof.
  destruct docs as [|doc docs].
  - rewrite bm25_fit_empty. by destruct s.
  - rewrite bm25_fit_nonempty by done. intros t Ht.
    apply fitted_vocabulary. by left.
Qed.

Lemma tfidf_fitted_vocabulary (ln : Q -> Q) (docs : list string)
    (s : TFIDFCalculator.t) (t : string) :
  t ∈ TFIDFCalculator.vocabulary (tfidf_fitted ln docs s)
  <-> t ∈ TFIDFCalculator.vocabulary s ∨
      ∃ tokens, tokens ∈ preprocess_text <$> docs ∧ t ∈ tokens.
Proof. apply vocab_fold_elem. Qed.

Lemma tfidf_fit_vocabulary_grows (ln : Q -> Q) (docs : list string) (s : TFIDFCalculator.t) :
  TFIDFCalculator.vocabulary s ⊆ TFIDFCalculator.vocabulary (TFIDFCalculator.fit ln docs s).2.
Proof.
  rewrite tfidf_fit_closed. intros t Ht. apply tfidf_fitted_vocabulary. by left.
Qed.

(** C2 (where the code departs from it): [fit] replaces [documents], the
    lengths and the term-frequency maps but only adds to the vocabulary and to
    the IDF table.  After [fit(["a"])] and then [fit(["b"])] the vocabulary
    still has "a", with an IDF entry, on both engines; a new engine fitted
    with ["b"] has neither. *)
Theorem refit_keeps_old_terms (ln : Q -> Q) (k1 b : Q) :
  let s2 := bm25_fits ln [["a"]; ["b"]] (bm25_new k1 b) in
  let s1 := bm25_fits ln [["b"]] (bm25_new k1 b) in
  let r2 := tfidf_fits ln [["a"]; ["b"]] tfidf_new in
  let r1 := tfidf_fits ln [["b"]] tfidf_new in
  ("a" ∈ BM25Calculator.vocabulary s2 ∧ ("a" ∉ BM25Calculator.vocabulary s1) ∧
   is_Some (BM25Calculator.idf_scores s2 !! "a") ∧
   (BM25Calculator.idf_scores s1 !! "a") = None ∧ s2 ≠ s1) ∧
  ("a" ∈ TFIDFCalculator.vocabulary r2 ∧ ("a" ∉ TFIDFCalculator.vocabulary r1) ∧
   is_Some (TFIDFCalculator.idf_scores r2 !! "a") ∧
   (TFIDFCalculator.idf_scores r1 !! "a") = None ∧ r2 ≠ r1).
Proof.
  intros s2 s1 r2 r1.
  assert ("a" ∈ BM25Calculator.vocabulary s2) as Hs2.
  { unfold s2, bm25_fits. cbn [foldl]. apply bm25_fit_vocabulary_grows.
    rewrite bm25_fit_nonempty by done. apply fitted_vocabulary. right. exists 0.
    vm_compute. by left. }
  assert ("a" ∉ BM25Calculator.vocabulary s1) as Hs1.
  { unfold s1, bm25_fits. cbn [foldl]. rewrite bm25_fit_nonempty by done.
    cbn [snd]. rewrite fitted_vocabulary. intros [H|[d H]]; [by apply elem_of_empty in H|].
    destruct d as [|d]; vm_compute in H.
    - apply list_elem_of_singleton in H. discriminate H.
    - by apply elem_of_nil in H. }
  assert ("a" ∈ TFIDFCalculator.vocabulary r2) as Hr2.
  { unfold r2, tfidf_fits. cbn [foldl]. apply tfidf_fit_vocabulary_grows.
    rewrite tfidf_fit_closed. apply tfidf_fitted_vocabulary. right.
    exists ["a"]. split; by left. }
  assert ("a" ∉ TFIDFCalculator.vocabulary r1) as Hr1.
  { unfold r1, tfidf_fits. cbn [foldl]. rewrite tfidf_fit_closed. cbn [snd].
    rewrite tfidf_fitted_vocabulary. intros [H|(d & Hd & H)]; [by apply elem_of_empty in H|].
    vm_compute in Hd. apply list_elem_of_singleton in Hd. subst d.
    apply list_elem_of_singleton in H. discriminate H. }
  split.
  - split; [done|]. split; [done|]. split; [|split].
    + apply elem_of_dom. by apply (bm25_fits_covered ln _ (bm25_new k1 b)); [intros t Ht; by apply elem_of_empty in Ht|].
    + unfold s1, bm25_fits. cbn [foldl]. rewrite bm25_fit_nonempty by done.
      cbn [snd]. rewrite fitted_idf_lookup. rewrite decide_False; [done|].
      unfold s1, bm25_fits in Hs1. cbn [foldl] in Hs1.
      by rewrite bm25_fit_nonempty in Hs1.
    + intros E. apply Hs1. by rewrite <- E.
  - split; [done|]. split; [done|]. split; [|split].
    + apply elem_of_dom. by apply (tfidf_fits_covered ln _ tfidf_new); [intros t Ht; by apply elem_of_empty in Ht|].
    + unfold r1, tfidf_fits. cbn [foldl]. rewrite tfidf_fit_closed.
      cbn [snd tfidf_fitted TFIDFCalculator.idf_scores].
      rewrite idf_fold_lookup. rewrite decide_False; [done|].
      rewrite elem_of_elements.
      unfold r1, tfidf_fits in Hr1. cbn [foldl] in Hr1.
      by rewrite tfidf_fit_closed in Hr1.
    + intros E. apply Hr1. by rewrite <- E.
Qed.

(** ** Construction *)

(** C3 (as the code has it): constructing a BM25 scorer succeeds for every
    [k1] and [b]; the parameters are stored as given and checked neither by
    the constructor nor by a later [fit]. *)
Theorem init_accepts_every_parameter (k1 b : Q) :
  BM25Calculator.init k1 b = Ok (bm25_new k1 b) ∧
  BM25Calculator.k1 (bm25_new k1 b) = k1 ∧
  BM25Calculator.b (bm25_new k1 b) = b ∧
  BM25DocumentRanker.init k1 b = Ok (ranker_new k1 b) ∧
  ∀ ln doc docs,
    (BM25Calculator.fit ln (doc :: docs) (bm25_new k1 b)).1 = Ok tt ∧
    (BM25DocumentRanker.fit ln (doc :: docs) (ranker_new k1 b)).1 = Ok tt.
Proof.
  split; [done|]. split; [done|]. split; [done|]. split; [done|].
  intros ln doc docs. split.
  - by rewrite bm25_fit_nonempty.
  - unfold BM25DocumentRanker.fit.
    unfold mbind at 1, M_bind at 1, modify at 1. cbn beta iota.
    unfold mbind at 1, M_bind at 1, BM25DocumentRanker.on_calc at 1.
    cbn [BM25DocumentRanker.bm25_calc]. by rewrite bm25_fit_nonempty.
Qed.

Lemma init_counterexample :
  ¬ (((0 <= 0)%Q ∨ (2 < 0)%Q ∨ (1 < 2)%Q) ->
     is_ok (BM25Calculator.init 0 2) = false).
Proof. intros H. discriminate H. right. right. reflexivity. Qed.

(** ** The average document length *)

Lemma tokens_of_lookup (docs : list string) (doc : string) :
  doc ∈ docs -> ∃ d, d < length docs ∧ Formula.tokens_of docs d = preprocess_text doc.
Proof.
  intros [d Hd]%list_elem_of_lookup. exists d. split; [by apply lookup_lt_Some in Hd|].
  by apply fitted_tokens_of.
Qed.

(** C6 (as the code has it): after a successful fit of a corpus in which
    some document has a token, [avg_doc_length > 0], so the ratio
    [doc_length / avg_doc_length] of the length normalization is defined in
    every later scoring call. *)
Theorem avg_doc_length_positive (ln : Q -> Q) (docs : list string)
    (s0 s : BM25Calculator.t) :
  BM25Calculator.fit ln docs s0 = (Ok tt, s) ->
  (∃ doc, doc ∈ docs ∧ preprocess_text doc ≠ []) ->
  (0 < BM25Calculator.avg_doc_length s)%Q ∧
  ∀ doc_length,
    BM25Calculator.length_norm_of s doc_length
    = Ok (1 - BM25Calculator.b s
          + BM25Calculator.b s * (Qnat doc_length / BM25Calculator.avg_doc_length s))%Q.
Proof.
  intros [_ ->]%bm25_fit_ok_inv (doc & Hdoc & Htok).
  destruct (tokens_of_lookup docs doc Hdoc) as (d & Hd & E).
  assert (0 < Formula.avg_doc_length docs)%Q as Hpos
    by (apply avg_doc_length_pos with d; by rewrite E).
  split; [done|]. intros n. unfold BM25Calculator.length_norm_of.
  rewrite py_div_ok; [done|]. intros Hz.
  change (BM25Calculator.avg_doc_length (bm25_fitted ln docs s0))
    with (Formula.avg_doc_length docs) in Hz.
  rewrite Hz in Hpos. by apply Qlt_irrefl in Hpos.
Qed.

Lemma avg_doc_length_positive_witness :
  (0 < BM25Calculator.avg_doc_length demo_fitted)%Q ∧
  ∀ doc_length,
    BM25Calculator.length_norm_of demo_fitted doc_length
    = Ok (1 - BM25Calculator.b demo_fitted
          + BM25Calculator.b demo_fitted
            * (Qnat doc_length / BM25Calculator.avg_doc_length demo_fitted))%Q.
Proof.
  apply (avg_doc_length_positive ln_approx demo_docs demo_new demo_fitted).
  - vm_compute. reflexivity.
  - exists "the cat sat". split; [by left|]. vm_compute. congruence.
Defined.

Lemma avg_doc_length_counterexample :
  ¬ (is_ok (BM25Calculator.fit ln_approx [EmptyString] demo_new).1 = true ->
     (0 < BM25Calculator.avg_doc_length (BM25Calculator.fit ln_approx [EmptyString] demo_new).2)%Q).
Proof. intros H. specialize (H eq_refl). vm_compute in H. discriminate H. Qed.

(** A corpus without tokens, fitted after a corpus with tokens, leaves a
    vocabulary and a zero average: scoring a term of the vocabulary raises. *)
Lemma score_after_tokenless_refit :
  BM25Calculator.calculate_bm25_score "a" 0
    (bm25_fits ln_approx [["a"]; [EmptyString]] demo_new)
  = Raise ZeroDivisionError.
Proof. vm_compute. reflexivity. Qed.

(** With [b = 1], a document without tokens has a zero length
    normalization: scoring it for a term of the vocabulary raises. *)
Lemma score_empty_document_full_normalization :
  BM25Calculator.calculate_bm25_score "a" 1
    (bm25_fits ln_approx [["a"; EmptyString]] (bm25_new k1_default 1))
  = Raise ZeroDivisionError.
Proof. vm_compute. reflexivity. Qed.

(** ** The explanation and its index *)

Lemma py_div_raise (x y : Q) (e : exn) : py_div x y = Raise e -> e = ZeroDivisionError.
Proof. unfold py_div. destruct (Qeq_bool y 0); congruence. Qed.

Lemma py_getitem_raise {V} (m : gmap string V) (t : string) (e : exn) :
  py_getitem m t = Raise e -> e = KeyError.
Proof. unfold py_getitem. destruct (m !! t); congruence. Qed.

Lemma for_acc_ok {A B} (l : list A) (acc : B) (body : B -> A -> result B) :
  (∀ acc x, x ∈ l -> is_ok (body acc x) = true) -> is_ok (for_acc l acc body) = true.
Proof.
  revert acc. induction l as [|x l IH]; intros acc Hb; [done|].
  rewrite for_acc_cons. pose proof (Hb acc x) as Hx.
  destruct (body acc x) as [acc'|e]; [|by discriminate Hx; left].
  simpl. apply IH. intros a y Hy. apply Hb. by right.
Qed.

Section Analysis.
Context (ln : Q -> Q) (docs : list string) (s0 : BM25Calculator.t).
Let s := bm25_fitted ln docs s0.

(** The steps of [get_term_analysis] after the two index operations. *)
Lemma analysis_rest_not_IndexError (query : string) (i : Z)
    (freq : gmap string nat) (len : nat) :
  (ratio ← py_div (Qnat len) (BM25Calculator.avg_doc_length s);
   acc ← for_acc (elements (list_to_set (preprocess_text query) : gset string)) (0%Q, [])
     (fun acc term =>
        if decide (term ∈ BM25Calculator.vocabulary s) then
          let tf := py_get0 freq term in
          idf ← py_getitem (BM25Calculator.idf_scores s) term;
          length_norm ← BM25Calculator.length_norm_of s len;
          term_score ← BM25Calculator.term_score_of s tf idf length_norm;
          let query_count := py_count term (preprocess_text query) in
          let weighted_score := (term_score * Qnat query_count)%Q in
          mret ((acc.1 + weighted_score)%Q,
                acc.2 ++ [BM25Calculator.mk_term_info term query_count tf idf
                            length_norm term_score weighted_score])
        else mret acc);
   mret (BM25Calculator.mk_analysis i len (BM25Calculator.avg_doc_length s)
           ratio acc.2 acc.1))
  ≠ Raise IndexError.
Proof.
  destruct (py_div (Qnat len) _) as [ratio|e] eqn:E1;
    [|apply py_div_raise in E1; subst e; done].
  cbn [mbind result_bind].
  match goal with |- context [for_acc ?l ?a ?f] =>
    pose proof (for_acc_not_raise IndexError l a f) as Hloop;
    destruct (for_acc l a f) as [acc|err] end; [done|].
  cbn [mbind result_bind]. intros [= ->]. apply Hloop; [|done].
  intros acc t _. destruct (decide (t ∈ BM25Calculator.vocabulary s)) as [Hv|Hv]; [|done].
  destruct (py_getitem _ t) as [idf|e] eqn:E2;
    [|apply py_getitem_raise in E2; subst e; done].
  cbn [mbind result_bind]. unfold BM25Calculator.length_norm_of.
  destruct (py_div (Qnat len) _) as [r|e] eqn:E3;
    [|apply py_div_raise in E3; subst e; done].
  cbn [mbind result_bind mret result_ret]. unfold BM25Calculator.term_score_of.
  match goal with |- context [py_div ?x ?y] =>
    destruct (py_div x y) as [r'|e] eqn:E4 end;
    [done|apply py_div_raise in E4; subst e; done].
Qed.

Lemma fitted_freqs_length : length (BM25Calculator.doc_term_freqs s) = length docs.
Proof. simpl. by rewrite !length_fmap. Qed.

Lemma fitted_lengths_length : length (BM25Calculator.doc_lengths s) = length docs.
Proof. simpl. by rewrite !length_fmap. Qed.

Lemma analysis_IndexError (query : string) (i : Z) :
  BM25Calculator.get_term_analysis query i s = Raise IndexError
  <-> (i < - Z.of_nat (length docs) ∨ Z.of_nat (length docs) <= i)%Z.
Proof.
  unfold BM25Calculator.get_term_analysis. cbn zeta. split.
  - intros H.
    destruct (decide (- Z.of_nat (length docs) <= i < Z.of_nat (length docs))%Z)
      as [Hin|Hout]; [|lia].
    destruct (py_index_in (BM25Calculator.doc_term_freqs s) i) as (freq & E1 & _);
      [rewrite fitted_freqs_length; lia|].
    destruct (py_index_in (BM25Calculator.doc_lengths s) i) as (len & E2 & _);
      [rewrite fitted_lengths_length; lia|].
    rewrite E1, E2 in H. cbn [mbind result_bind] in H.
    by apply analysis_rest_not_IndexError in H.
  - intros H. rewrite (py_index_out (BM25Calculator.doc_term_freqs s));
      [reflexivity|]. by rewrite fitted_freqs_length.
Qed.

End Analysis.

(** ** The explanation: which document, and when it returns *)

Lemma for_acc_ok_inv {A B} (l : list A) (acc : B) (body : B -> A -> result B) :
  is_ok (for_acc l acc body) = true ->
  ∀ x, x ∈ l -> ∃ acc', is_ok (body acc' x) = true.
Proof.
  revert acc. induction l as [|y l IH]; intros acc H x Hx; [by apply elem_of_nil in Hx|].
  rewrite for_acc_cons in H. destruct (body acc y) as [acc'|err] eqn:E; [|done].
  cbn [mbind result_bind] in H. apply elem_of_cons in Hx as [->|Hx].
  - exists acc. by rewrite E.
  - by eapply IH.
Qed.

Lemma py_sum_nonzero (l : list nat) : py_sum l ≠ 0 -> ∃ x, x ∈ l ∧ x ≠ 0.
Proof.
  induction l as [|y l IH]; [done|]. rewrite py_sum_cons. intros H.
  destruct (decide (y = 0)) as [->|Hy].
  - destruct IH as (x & Hx & Hx0); [lia|]. exists x. split; [by right|done].
  - exists y. split; [by left|done].
Qed.

Lemma avg_doc_length_nonneg (docs : list string) : (0 <= Formula.avg_doc_length docs)%Q.
Proof.
  unfold Formula.avg_doc_length, Qdiv.
  apply Qmult_le_0_compat; [apply Qnat_nonneg|].
  apply Qinv_le_0_compat, Qnat_nonneg.
Qed.

(** The average length is non-zero exactly when some document has a token. *)
Lemma avg_doc_length_nonzero (docs : list string) :
  ¬ (Formula.avg_doc_length docs == 0)%Q
  <-> ∃ doc, doc ∈ docs ∧ preprocess_text doc ≠ [].
Proof.
  split.
  - intros H.
    destruct (py_sum_nonzero (length <$> Formula.corpus docs)) as (x & Hx & Hx0).
    { intros E. apply H. unfold Formula.avg_doc_length. rewrite E.
      unfold Qdiv. change (Qnat 0) with 0%Q. ring. }
    apply list_elem_of_fmap in Hx as (tokens & -> & Htok).
    apply list_elem_of_fmap in Htok as (doc & -> & Hdoc).
    exists doc. split; [done|]. intros E. by rewrite E in Hx0.
  - intros (doc & Hdoc & Htok) E.
    apply list_elem_of_lookup in Hdoc as [d Hd].
    assert (Formula.tokens_of docs d ≠ []) as Hne
      by (by rewrite (fitted_tokens_of docs d doc Hd)).
    pose proof (avg_doc_length_pos docs d Hne) as Hp.
    rewrite E in Hp. by apply Qlt_irrefl in Hp.
Qed.

(** With [k1 > 0] and [b] in [[0,1]], the divisor of a term score is zero
    only for a document without tokens under [b = 1]. *)
Lemma divisor_zero_iff (k1 b : Q) (docs : list string) (t : string) (d : nat) :
  (0 < k1)%Q -> (0 <= b)%Q -> (b <= 1)%Q ->
  ¬ (Formula.avg_doc_length docs == 0)%Q ->
  (Qnat (Formula.tf docs t d) + k1 * Formula.length_norm b docs d == 0)%Q
  <-> (b == 1)%Q ∧ Formula.tokens_of docs d = [].
Proof.
  intros Hk Hb0 Hb1 Havg.
  assert (0 < Formula.avg_doc_length docs)%Q as Hpos.
  { pose proof (avg_doc_length_nonneg docs) as Hge.
    apply Qle_lt_or_eq in Hge as [Hlt|Heq]; [done|]. exfalso. apply Havg. by symmetry. }
  unfold Formula.length_norm, Formula.tf, Formula.doc_length.
  set (tokens := Formula.tokens_of docs d).
  set (avg := Formula.avg_doc_length docs) in *.
  split.
  - intros Hz.
    set (r := (Qnat (length tokens) / avg)%Q) in *.
    assert (0 <= r)%Q as Hr.
    { unfold r, Qdiv. apply Qmult_le_0_compat; [apply Qnat_nonneg|].
      apply Qinv_le_0_compat. by apply Qlt_le_weak. }
    assert (0 <= b * r)%Q as Hbr by (by apply Qmult_le_0_compat).
    pose proof (Qnat_nonneg (py_count t tokens)) as Htf.
    set (br := (b * r)%Q) in *.
    assert (0 <= k1 * (1 - b + br))%Q as Hkl
      by (apply Qmult_le_0_compat; [by apply Qlt_le_weak|lra]).
    assert (k1 * (1 - b + br) == 0)%Q as Hprod by lra.
    apply Qmult_integral in Hprod as [Hk0|Hln]; [lra|].
    assert (b == 1)%Q as Hb by lra. split; [done|].
    assert (br == 0)%Q as Hbr0 by lra. unfold br in Hbr0.
    apply Qmult_integral in Hbr0 as [Hb0'|Hr0]; [lra|].
    assert (Qnat (length tokens) == 0)%Q as Hlen.
    { assert (avg * r == Qnat (length tokens))%Q as E
        by (unfold r; by apply Qmult_div_r).
      rewrite <- E, Hr0. ring. }
    apply Qnat_eq0 in Hlen. by apply nil_length_inv.
  - intros [Hb Htok]. rewrite Htok.
    assert (py_count t [] = 0) as -> by done. cbn [length].
    change (Qnat 0) with 0%Q. rewrite Hb. unfold Qdiv. ring.
Qed.

(** A negative index inside the range addresses the document
    [doc_count + doc_idx]; only [document_index] keeps the index as given. *)
Lemma analysis_negative_index (ln : Q -> Q) (docs : list string)
    (s0 : BM25Calculator.t) (query : string) (i : Z) :
  (- Z.of_nat (length docs) <= i < 0)%Z ->
  BM25Calculator.get_term_analysis query i (bm25_fitted ln docs s0)
  = a ← BM25Calculator.get_term_analysis query (i + Z.of_nat (length docs))
          (bm25_fitted ln docs s0);
    mret (BM25Calculator.mk_analysis i
            (BM25Calculator.document_length a)
            (BM25Calculator.analysis_avg_doc_length a)
            (BM25Calculator.length_ratio a)
            (BM25Calculator.terms a)
            (BM25Calculator.total_score a)).
Proof.
  intros Hi. unfold BM25Calculator.get_term_analysis. cbn zeta.
  rewrite (py_index_neg (BM25Calculator.doc_term_freqs (bm25_fitted ln docs s0)) i)
    by (rewrite fitted_freqs_length; lia).
  rewrite (py_index_neg (BM25Calculator.doc_lengths (bm25_fitted ln docs s0)) i)
    by (rewrite fitted_lengths_length; lia).
  rewrite fitted_freqs_length, fitted_lengths_length.
  destruct (py_index (BM25Calculator.doc_term_freqs _) _) as [freq|err]; [|done].
  cbn [mbind result_bind].
  destruct (py_index (BM25Calculator.doc_lengths _) _) as [len|err]; [|done].
  cbn [mbind result_bind].
  destruct (py_div (Qnat len) _) as [ratio|err]; [|done].
  cbn [mbind result_bind].
  by destruct (for_acc _ _ _) as [acc|err].
Qed.

(** For an index that is not negative: the explanation returns exactly when
    its divisions are defined. *)
Lemma analysis_returns_iff (ln : Q -> Q) (docs : list string)
    (s0 : BM25Calculator.t) (query : string) (d : nat) :
  d < length docs ->
  is_ok (BM25Calculator.get_term_analysis query (Z.of_nat d) (bm25_fitted ln docs s0)) = true
  <-> ¬ (BM25Calculator.avg_doc_length (bm25_fitted ln docs s0) == 0)%Q ∧
      ∀ t, t ∈ preprocess_text query ->
           t ∈ BM25Calculator.vocabulary (bm25_fitted ln docs s0) ->
           Formula.divisors_nonzero (BM25Calculator.k1 (bm25_fitted ln docs s0))
             (BM25Calculator.b (bm25_fitted ln docs s0)) docs t d.
Proof.
  intros Hd. destruct (lookup_lt_is_Some_2 docs d Hd) as [doc Hdoc].
  unfold BM25Calculator.get_term_analysis. cbn zeta.
  rewrite (py_index_nat _ _ _ (fitted_freq ln docs s0 _ _ Hdoc)). cbn [mbind result_bind].
  rewrite (py_index_nat _ _ _ (fitted_length ln docs s0 _ _ Hdoc)). cbn [mbind result_bind].
  change (BM25Calculator.avg_doc_length (bm25_fitted ln docs s0))
    with (Formula.avg_doc_length docs).
  split.
  - intros H. unfold py_div at 1 in H.
    destruct (Qeq_bool (Formula.avg_doc_length docs) 0) eqn:Eavg; [done|].
    assert (¬ (Formula.avg_doc_length docs == 0)%Q) as Havg
      by (intros Hz%Qeq_bool_iff; congruence).
    cbn [mbind result_bind] in H. split; [done|]. intros t Ht Hv. split; [done|].
    match type of H with context [for_acc ?l ?a ?f] =>
      pose proof (for_acc_ok_inv l a f) as Hinv;
      destruct (for_acc l a f) as [acc|err]; [|done] end.
    destruct (Hinv eq_refl t) as [acc' Hok];
      [by apply elem_of_elements, elem_of_list_to_set|].
    cbn beta in Hok. rewrite decide_True in Hok by done. cbn zeta in Hok.
    rewrite fitted_idf in Hok by done. cbn [mbind result_bind] in Hok.
    rewrite fitted_length_norm in Hok by done. cbn [mbind result_bind] in Hok.
    unfold BM25Calculator.term_score_of in Hok. rewrite Counter_get in Hok.
    unfold py_div in Hok. fold (Formula.tf docs t d) in Hok.
    intros Hz%Qeq_bool_iff. by rewrite Hz in Hok.
  - intros [Havg Hdef]. rewrite py_div_ok by done. cbn [mbind result_bind].
    match goal with |- context [for_acc ?l ?a ?f] =>
      pose proof (for_acc_ok l a f) as Hloop;
      destruct (for_acc l a f) as [acc|err] end; [done|].
    discriminate Hloop. intros acc t Ht.
    destruct (decide (t ∈ BM25Calculator.vocabulary (bm25_fitted ln docs s0))) as [Hv|Hv];
      [|done].
    apply elem_of_elements, elem_of_list_to_set in Ht.
    destruct (Hdef t Ht Hv) as [_ Hden].
    cbn zeta. rewrite fitted_idf by done. cbn [mbind result_bind].
    rewrite fitted_length_norm by done. cbn [mbind result_bind].
    by rewrite fitted_term_score_of by done.
Qed.

Lemma is_ok_bind_ok {A B} (r : result A) (f : A -> B) :
  is_ok (a ← r; mret (f a)) = is_ok r.
Proof. by destruct r. Qed.

(** The same for every index inside the range: the index [i] addresses the
    document [i mod doc_count]. *)
Lemma analysis_returns_iff_index (ln : Q -> Q) (docs : list string)
    (s0 : BM25Calculator.t) (query : string) (i : Z) :
  (- Z.of_nat (length docs) <= i < Z.of_nat (length docs))%Z ->
  is_ok (BM25Calculator.get_term_analysis query i (bm25_fitted ln docs s0)) = true
  <-> ¬ (BM25Calculator.avg_doc_length (bm25_fitted ln docs s0) == 0)%Q ∧
      ∀ t, t ∈ preprocess_text query ->
           t ∈ BM25Calculator.vocabulary (bm25_fitted ln docs s0) ->
           Formula.divisors_nonzero (BM25Calculator.k1 (bm25_fitted ln docs s0))
             (BM25Calculator.b (bm25_fitted ln docs s0)) docs t
             (Z.to_nat (i mod Z.of_nat (length docs))).
Proof.
  intros Hi. destruct (decide (i < 0)%Z) as [Hneg|Hpos].
  - rewrite analysis_negative_index by lia. rewrite is_ok_bind_ok.
    assert (i mod Z.of_nat (length docs) = i + Z.of_nat (length docs))%Z as ->.
    { rewrite <- (Z_mod_plus_full i 1 (Z.of_nat (length docs))).
      rewrite Z.mul_1_l. apply Z.mod_small. lia. }
    rewrite <- (Z2Nat.id (i + Z.of_nat (length docs))) at 1 by lia.
    apply analysis_returns_iff. lia.
  - rewrite Z.mod_small by lia.
    rewrite <- (Z2Nat.id i) at 1 by lia.
    apply analysis_returns_iff. lia.
Qed.

(** C7 (as the code has it): after a successful fit, [get_term_analysis]
    raises [IndexError] exactly when [doc_idx] is outside
    [[-doc_count, doc_count)].  An index in [[-doc_count, 0)] addresses the
    document [doc_count + doc_idx], as list indexing does: the explanation is
    that of the index [doc_count + doc_idx], with [document_index] left as
    given.  For an index inside [[-doc_count, doc_count)], which addresses the
    document [d = doc_idx mod doc_count], an explanation is returned exactly
    when the average document length is not zero and, for every query term of
    the vocabulary, the divisor [tf + k1 * length_norm] of its term score in
    document [d] is not zero.  With [k1 > 0] and [b] in [[0,1]] that is:
    exactly when some document of the corpus has a token, unless [b = 1],
    document [d] has no token and some query term is in the vocabulary. *)
Theorem get_term_analysis_index (ln : Q -> Q) (docs : list string)
    (s0 s : BM25Calculator.t) (query : string) (i : Z) :
  BM25Calculator.fit ln docs s0 = (Ok tt, s) ->
  let n := Z.of_nat (length docs) in
  let d := Z.to_nat (i mod n) in
  (BM25Calculator.get_term_analysis query i s = Raise IndexError
   <-> (i < - n ∨ n <= i)%Z) ∧
  ((- n <= i < 0)%Z ->
   BM25Calculator.get_term_analysis query i s
   = a ← BM25Calculator.get_term_analysis query (i + n) s;
     mret (BM25Calculator.mk_analysis i
             (BM25Calculator.document_length a)
             (BM25Calculator.analysis_avg_doc_length a)
             (BM25Calculator.length_ratio a)
             (BM25Calculator.terms a)
             (BM25Calculator.total_score a))) ∧
  ((- n <= i < n)%Z ->
   (is_ok (BM25Calculator.get_term_analysis query i s) = true
    <-> ¬ (BM25Calculator.avg_doc_length s == 0)%Q ∧
        ∀ t, t ∈ preprocess_text query -> t ∈ BM25Calculator.vocabulary s ->
             Formula.divisors_nonzero (BM25Calculator.k1 s) (BM25Calculator.b s)
               docs t d)) ∧
  ((- n <= i < n)%Z ->
   (0 < BM25Calculator.k1 s)%Q ->
   (0 <= BM25Calculator.b s)%Q -> (BM25Calculator.b s <= 1)%Q ->
   (is_ok (BM25Calculator.get_term_analysis query i s) = true
    <-> (∃ doc, doc ∈ docs ∧ preprocess_text doc ≠ []) ∧
        ¬ ((BM25Calculator.b s == 1)%Q ∧ Formula.tokens_of docs d = [] ∧
           ∃ t, t ∈ preprocess_text query ∧ t ∈ BM25Calculator.vocabulary s))).
Proof.
  intros [_ ->]%bm25_fit_ok_inv n d.
  split; [apply analysis_IndexError|].
  split; [apply analysis_negative_index|].
  split; [apply analysis_returns_iff_index|].
  intros Hi Hk Hb0 Hb1. rewrite analysis_returns_iff_index by done. fold n. fold d.
  change (BM25Calculator.avg_doc_length (bm25_fitted ln docs s0))
    with (Formula.avg_doc_length docs).
  rewrite avg_doc_length_nonzero. split.
  - intros [Hdoc Hdef]. split; [done|]. intros (Hb & Htok & t & Ht & Hv).
    destruct (Hdef t Ht Hv) as [Havg Hden]. apply Hden.
    by apply divisor_zero_iff.
  - intros [Hdoc Hnot]. split; [done|]. intros t Ht Hv.
    assert (¬ (Formula.avg_doc_length docs == 0)%Q) as Havg
      by (by apply avg_doc_length_nonzero).
    split; [done|]. intros Hz.
    apply divisor_zero_iff in Hz as [Hb Htok]; [|done..].
    apply Hnot. split; [done|]. split; [done|]. by exists t.
Qed.

Lemma get_term_analysis_index_witness :
  let s := (BM25Calculator.fit ln_approx ["a b"; EmptyString] demo_new).2 in
  BM25Calculator.get_term_analysis "a" 2 s = Raise IndexError ∧
  BM25Calculator.get_term_analysis "a" (-1) s
  = (a ← BM25Calculator.get_term_analysis "a" 1 s;
     mret (BM25Calculator.mk_analysis (-1)
             (BM25Calculator.document_length a)
             (BM25Calculator.analysis_avg_doc_length a)
             (BM25Calculator.length_ratio a)
             (BM25Calculator.terms a)
             (BM25Calculator.total_score a))) ∧
  is_ok (BM25Calculator.get_term_analysis "a" (-1) s) = true.
Proof.
  intros s.
  assert (BM25Calculator.fit ln_approx ["a b"; EmptyString] demo_new = (Ok tt, s)) as Hfit
    by (vm_compute; reflexivity).
  pose proof (get_term_analysis_index ln_approx ["a b"; EmptyString] demo_new s "a" 2 Hfit)
    as [Hout _].
  pose proof (get_term_analysis_index ln_approx ["a b"; EmptyString] demo_new s "a" (-1) Hfit)
    as (_ & Hneg & _ & Hret).
  split; [apply Hout; right; simpl; lia|].
  split; [apply Hneg; simpl; lia|].
  apply Hret.
  - simpl. lia.
  - vm_compute. reflexivity.
  - vm_compute. congruence.
  - vm_compute. congruence.
  - split.
    + exists "a b". split; [by left|]. vm_compute. congruence.
    + intros [Hb _]. vm_compute in Hb. discriminate Hb.
Defined.

Lemma get_term_analysis_counterexample :
  ¬ (¬ (0 <= -1 < Z.of_nat (length demo_docs))%Z ->
     is_ok (BM25Calculator.get_term_analysis "cat dog" (-1) demo_fitted) = false).
Proof.
  intros H. assert (¬ (0 <= -1 < Z.of_nat (length demo_docs))%Z) as Hout by lia.
  specialize (H Hout). vm_compute in H. discriminate H.
Qed.

(** An index inside [[0, doc_count)] does not suffice: after a fit of
    documents without tokens the explanation divides by a zero average. *)
Lemma get_term_analysis_tokenless :
  BM25Calculator.get_term_analysis "cat" 0
    (BM25Calculator.fit ln_approx [EmptyString] demo_new).2
  = Raise ZeroDivisionError.
Proof. vm_compute. reflexivity. Qed.

(** ** Use before a fit *)




Lemma ranker_fit_nonempty (ln : Q -> Q) (docs : list string) (r : BM25DocumentRanker.t) :
  docs ≠ [] ->
  BM25DocumentRanker.fit ln docs r
  = (Ok tt, BM25DocumentRanker.mk
              (bm25_fitted ln docs (BM25DocumentRanker.bm25_calc r)) docs true).
Proof.
  intros Hne. destruct r as [calc ds f]. unfold BM25DocumentRanker.fit.
  unfold mbind at 1, M_bind at 1, modify at 1. cbn beta iota.
  unfold mbind at 1, M_bind at 1, BM25DocumentRanker.on_calc at 1.
  cbn [BM25DocumentRanker.bm25_calc]. by rewrite bm25_fit_nonempty.
Qed.

Lemma ranker_fit_empty (ln : Q -> Q) (r : BM25DocumentRanker.t) :
  (BM25DocumentRanker.fit ln [] r).1 = Raise ZeroDivisionError ∧
  BM25DocumentRanker.fitted (BM25DocumentRanker.fit ln [] r).2
  = BM25DocumentRanker.fitted r.
Proof. by destruct r as [[] ds f]. Qed.

Lemma tfidf_vector_ok (s : TFIDFCalculator.t) (text : string) :
  TFIDFCalculator.documents s ≠ [] -> tfidf_vocab_covered s ->
  is_ok (TFIDFCalculator.calculate_tfidf_vector text s) = true.
Proof.
  intros Hne Hinv. unfold TFIDFCalculator.calculate_tfidf_vector.
  destruct (TFIDFCalculator.documents s); [done|]. cbn zeta.
  apply for_acc_ok. intros acc t Ht.
  destruct (decide (t ∈ TFIDFCalculator.vocabulary s)) as [Hv|Hv]; [|done].
  destruct (py_getitem_covered (TFIDFCalculator.idf_scores s) t) as [v Ev];
    [by apply Hinv|].
  unfold TFIDFCalculator.calculate_tf.
  destruct (length (preprocess_text text) =? 0)%nat eqn:E.
  - cbn [mbind result_bind]. by rewrite Ev.
  - cbn zeta. apply Nat.eqb_neq in E. rewrite py_div_ok.
    + cbn [mbind result_bind]. by rewrite Ev.
    + intros Hz%Qnat_eq0. done.
Qed.

Lemma py_slice_to_nil {A} (k : Z) : py_slice_to (@nil A) k = [].
Proof. unfold py_slice_to. destruct (k <? 0)%Z; apply take_nil. Qed.



(** * Further properties of the code *)

(** ** The tokenizer *)

Lemma lower_ascii_idemp (c : ascii) : lower_ascii (lower_ascii c) = lower_ascii c.
Proof. destruct c as [[] [] [] [] [] [] [] []]; reflexivity. Qed.

Lemma lower_ascii_space (c : ascii) : is_space (lower_ascii c) = is_space c.
Proof. destruct c as [[] [] [] [] [] [] [] []]; reflexivity. Qed.

Lemma lower_chars (s : string) :
  Forall (fun c => lower_ascii c = c) (String.list_ascii_of_string (lower s)).
Proof.
  induction s as [|c s IH]; simpl; constructor; [apply lower_ascii_idemp|done].
Qed.

Lemma flush_app (cur : list ascii) (k : list string) : flush cur k = flush cur [] ++ k.
Proof. by destruct cur. Qed.

Lemma split_from_tokens (cur : list ascii) (s : string) (t : string) :
  Forall (fun c => is_space c = false ∧ lower_ascii c = c) cur ->
  Forall (fun c => lower_ascii c = c) (String.list_ascii_of_string s) ->
  t ∈ split_from cur s ->
  t ≠ EmptyString ∧
  Forall (fun c => is_space c = false ∧ lower_ascii c = c)
         (String.list_ascii_of_string t).
Proof.
  assert (∀ cur k, Forall (fun c => is_space c = false ∧ lower_ascii c = c) cur ->
            t ∈ flush cur k ->
            (t ≠ EmptyString ∧
             Forall (fun c => is_space c = false ∧ lower_ascii c = c)
                    (String.list_ascii_of_string t)) ∨ t ∈ k) as Hflush.
  { intros [|c cur'] k Hcur Ht; [by right|]. simpl in Ht.
    apply elem_of_cons in Ht as [->|Ht]; [left|by right].
    rewrite String.list_ascii_of_string_of_list_ascii. split.
    - intros E. apply (f_equal String.list_ascii_of_string) in E.
      rewrite String.list_ascii_of_string_of_list_ascii in E.
      apply (f_equal length) in E. rewrite length_app in E. simpl in E. lia.
    - rewrite Forall_forall in Hcur. apply Forall_forall. intros x Hx.
      apply Hcur. apply elem_of_app in Hx as [Hx|Hx].
      + right. by apply list_elem_of_In, in_rev, list_elem_of_In.
      + apply list_elem_of_singleton in Hx as ->. by left. }
  revert cur. induction s as [|c s IH]; intros cur Hcur Hs Ht.
  - simpl in Ht. destruct (Hflush cur [] Hcur Ht) as [?|Hn]; [done|].
    by apply elem_of_nil in Hn.
  - simpl in Hs. apply Forall_cons in Hs as [Hc Hs]. simpl in Ht.
    destruct (is_space c) eqn:E.
    + destruct (Hflush cur _ Hcur Ht) as [?|Hn]; [done|]. by apply (IH []).
    + apply (IH (c :: cur)); [|done..]. by constructor.
Qed.

(** Every token that [preprocess_text] returns is non-empty and has neither
    a white-space character nor an ASCII capital. *)
Theorem preprocess_text_tokens (text t : string) :
  t ∈ preprocess_text text ->
  t ≠ EmptyString ∧
  Forall (fun c => is_space c = false ∧ lower_ascii c = c)
         (String.list_ascii_of_string t).
Proof. apply split_from_tokens; [constructor|apply lower_chars]. Qed.

Lemma lower_app (a b : string) : lower (a +:+ b) = lower a +:+ lower b.
Proof. induction a as [|c a IH]; simpl; [done|by rewrite IH]. Qed.

Lemma split_from_app (cur : list ascii) (a b : string) (c : ascii) :
  is_space c = true ->
  split_from cur (a +:+ String c b) = split_from cur a ++ split_from [] b.
Proof.
  intros Hc. revert cur. induction a as [|x a IH]; intros cur; simpl.
  - rewrite Hc. apply flush_app.
  - destruct (is_space x).
    + rewrite IH. rewrite (flush_app cur (_ ++ _)), (flush_app cur (split_from [] a)).
      by rewrite app_assoc.
    + apply IH.
Qed.

(** Two texts joined by a white-space character tokenize to the tokens of
    the first followed by the tokens of the second. *)
Theorem preprocess_text_app (a b : string) (c : ascii) :
  is_space c = true ->
  preprocess_text (a +:+ String c b) = preprocess_text a ++ preprocess_text b.
Proof.
  intros Hc. unfold preprocess_text, split. rewrite lower_app. simpl.
  apply split_from_app. by rewrite lower_ascii_space.
Qed.

Lemma preprocess_text_app_witness :
  preprocess_text ("The cat" +:+ String " " "SAT  down")
  = preprocess_text "The cat" ++ preprocess_text "SAT  down".
Proof. apply (preprocess_text_app "The cat" "SAT  down" " "). reflexivity. Defined.

Lemma preprocess_text_tokens_witness :
  "cat" ≠ EmptyString ∧
  Forall (fun c => is_space c = false ∧ lower_ascii c = c)
         (String.list_ascii_of_string "cat").
Proof. apply (preprocess_text_tokens "The  Cat sat" "cat"). vm_compute. right. by left. Defined.

(** ** Fitting the same corpus again *)

Lemma vocab_fold_idemp (processed : list (list string)) (v : gset string) :
  foldl (fun v tokens => v ∪ list_to_set tokens)
        (foldl (fun v tokens => v ∪ list_to_set tokens) v processed) processed
  = foldl (fun v tokens => v ∪ list_to_set tokens) v processed.
Proof.
  apply set_eq. intros t. rewrite !vocab_fold_elem. split.
  - intros [[?|?]|?]; auto.
  - intros [?|?]; auto.
Qed.

Lemma idf_fold_idemp {V} (f : string -> V) (l : list string) (m : gmap string V) :
  foldl (fun m u => <[u := f u]> m) (foldl (fun m u => <[u := f u]> m) m l) l
  = foldl (fun m u => <[u := f u]> m) m l.
Proof.
  apply map_eq. intros t. rewrite !idf_fold_lookup. by destruct (decide (t ∈ l)).
Qed.

Lemma bm25_fitted_idemp (ln : Q -> Q) (docs : list string) (s : BM25Calculator.t) :
  bm25_fitted ln docs (bm25_fitted ln docs s) = bm25_fitted ln docs s.
Proof.
  unfold bm25_fitted. cbn [BM25Calculator.k1 BM25Calculator.b BM25Calculator.vocabulary
                            BM25Calculator.idf_scores].
  rewrite vocab_fold_idemp. f_equal. apply idf_fold_idemp.
Qed.

Lemma tfidf_fitted_idemp (ln : Q -> Q) (docs : list string) (s : TFIDFCalculator.t) :
  tfidf_fitted ln docs (tfidf_fitted ln docs s) = tfidf_fitted ln docs s.
Proof.
  unfold tfidf_fitted. cbn [TFIDFCalculator.vocabulary TFIDFCalculator.idf_scores].
  rewrite vocab_fold_idemp. f_equal. apply idf_fold_idemp.
Qed.

(** Fitting an engine with the corpus it was last fitted with changes
    nothing: the call has the same outcome and leaves the same object, on
    both engines. *)
Theorem fit_again_same (ln : Q -> Q) (docs : list string)
    (s : BM25Calculator.t) (r : TFIDFCalculator.t) :
  BM25Calculator.fit ln docs (BM25Calculator.fit ln docs s).2
  = BM25Calculator.fit ln docs s ∧
  TFIDFCalculator.fit ln docs (TFIDFCalculator.fit ln docs r).2
  = TFIDFCalculator.fit ln docs r.
Proof.
  split.
  - destruct docs as [|doc docs].
    + rewrite !bm25_fit_empty. by destruct s.
    + rewrite !bm25_fit_nonempty by done. cbn [snd]. by rewrite bm25_fitted_idemp.
  - rewrite !tfidf_fit_closed. cbn [snd]. by rewrite tfidf_fitted_idemp.
Qed.

(** ** A document without a term of the query *)

Lemma py_count_zero (t : string) (l : list string) : t ∉ l -> py_count t l = 0.
Proof.
  induction l as [|u l IH]; [done|]. intros Hn. rewrite py_count_cons.
  rewrite decide_False by (intros ->; apply Hn; by left).
  rewrite IH; [done|]. intros H. apply Hn. by right.
Qed.

Lemma foldl_Qplus_zero (l : list Q) (acc : Q) :
  Forall (fun x => x == 0)%Q l -> (foldl Qplus acc l == acc)%Q.
Proof.
  revert acc. induction l as [|x l IH]; intros acc Hl; [reflexivity|].
  apply Forall_cons in Hl as [Hx Hl]. simpl. rewrite IH by done. rewrite Hx. ring.
Qed.

(** After a successful fit, a document that contains none of the query
    tokens has score 0 for that query, where the divisions are defined. *)
Theorem score_without_common_term (ln : Q -> Q) (docs : list string)
    (s0 s : BM25Calculator.t) (query : string) (d : nat) :
  BM25Calculator.fit ln docs s0 = (Ok tt, s) ->
  d < length docs ->
  (∀ t, t ∈ preprocess_text query -> t ∈ BM25Calculator.vocabulary s ->
        Formula.divisors_nonzero (BM25Calculator.k1 s) (BM25Calculator.b s) docs t d) ->
  (∀ t, t ∈ preprocess_text query -> t ∉ Formula.tokens_of docs d) ->
  ∃ x, BM25Calculator.calculate_bm25_score query (Z.of_nat d) s = Ok x ∧ (x == 0)%Q.
Proof.
  intros [_ ->]%bm25_fit_ok_inv Hd Hdef Hno. eexists. split; [by apply fitted_score|].
  unfold Formula.score. apply foldl_Qplus_zero, Forall_fmap, Forall_forall.
  intros t Ht. apply list_elem_of_filter in Ht as [_ Ht]. simpl.
  unfold Formula.term_score, Formula.tf. rewrite py_count_zero by by apply Hno.
  unfold Qdiv. change (Qnat 0) with 0%Q. ring.
Qed.

Lemma score_without_common_term_witness :
  ∃ x, BM25Calculator.calculate_bm25_score "cat dog" (Z.of_nat 2) demo_fitted = Ok x ∧
       (x == 0)%Q.
Proof.
  apply (score_without_common_term ln_approx demo_docs demo_new demo_fitted "cat dog" 2).
  - vm_compute. reflexivity.
  - simpl. lia.
  - intros t _ _. apply divisors_nonzero_valid; vm_compute; congruence.
  - intros t Ht Hin. vm_compute in Ht, Hin.
    apply elem_of_cons in Ht as [->|Ht].
    + repeat (apply elem_of_cons in Hin as [Hin|Hin]; [discriminate Hin|]).
      by apply elem_of_nil in Hin.
    + apply list_elem_of_singleton in Ht as ->.
      repeat (apply elem_of_cons in Hin as [Hin|Hin]; [discriminate Hin|]).
      by apply elem_of_nil in Hin.
Defined.

(** ** Sums of rationals *)

Lemma foldl_Qplus_acc (l : list Q) (a : Q) :
  (foldl Qplus a l == a + foldl Qplus 0 l)%Q.
Proof.
  revert a. induction l as [|x l IH]; intros a; simpl; [ring|].
  rewrite (IH (a + x)%Q), (IH (0 + x)%Q). ring.
Qed.

Lemma py_fsum_cons (x : Q) (l : list Q) : (py_fsum (x :: l) == x + py_fsum l)%Q.
Proof. unfold py_fsum. simpl. rewrite foldl_Qplus_acc. ring. Qed.

Lemma py_fsum_zero (l : list Q) : Forall (fun x => x == 0)%Q l -> (py_fsum l == 0)%Q.
Proof. apply foldl_Qplus_zero. Qed.

Lemma py_fsum_plus {A} (f g : A -> Q) (l : list A) :
  (py_fsum ((fun x => f x + g x) <$> l) == py_fsum (f <$> l) + py_fsum (g <$> l))%Q.
Proof.
  induction l as [|x l IH]; [reflexivity|].
  rewrite !fmap_cons, !py_fsum_cons, IH. ring.
Qed.

Lemma py_fsum_ext {A} (f g : A -> Q) (l : list A) :
  (∀ x, x ∈ l -> f x == g x)%Q -> (py_fsum (f <$> l) == py_fsum (g <$> l))%Q.
Proof.
  induction l as [|x l IH]; intros H; [reflexivity|].
  rewrite !fmap_cons, !py_fsum_cons. rewrite (H x) by by left.
  rewrite IH; [reflexivity|]. intros y Hy. apply H. by right.
Qed.

Lemma py_fsum_indicator (g : string -> Q) (x : string) (D : list string) :
  NoDup D -> x ∈ D ->
  (py_fsum ((fun u => g u * (if decide (x = u) then 1 else 0)) <$> D) == g x)%Q.
Proof.
  induction 1 as [|u D Hu HD IH]; intros Hx; [by apply elem_of_nil in Hx|].
  rewrite fmap_cons, py_fsum_cons. destruct (decide (x = u)) as [<-|Hne].
  - rewrite py_fsum_zero; [ring|]. apply Forall_fmap, Forall_forall. intros v Hv.
    simpl. rewrite decide_False by (intros <-; done). ring.
  - apply elem_of_cons in Hx as [?|Hx]; [done|]. rewrite IH by done. ring.
Qed.

Lemma Qnat_add (a b : nat) : (Qnat (a + b) == Qnat a + Qnat b)%Q.
Proof. unfold Qnat. rewrite Nat2Z.inj_add. by rewrite inject_Z_plus. Qed.

(** A sum over a list with repetitions, regrouped by distinct element. *)
Lemma py_fsum_by_count (g : string -> Q) (T D : list string) :
  NoDup D -> (∀ t, t ∈ T -> t ∈ D) ->
  (py_fsum (g <$> T) == py_fsum ((fun u => g u * Qnat (py_count u T)) <$> D))%Q.
Proof.
  intros HD. induction T as [|x T IH]; intros Hin.
  - symmetry. apply py_fsum_zero, Forall_fmap, Forall_forall. intros u _. simpl.
    change (Qnat (py_count u [])) with 0%Q. ring.
  - rewrite fmap_cons, py_fsum_cons. rewrite IH by (intros t Ht; apply Hin; by right).
    rewrite <- (py_fsum_indicator g x D) by (done || apply Hin; by left).
    rewrite <- py_fsum_plus. apply py_fsum_ext. intros u _.
    rewrite py_count_cons, Qnat_add. destruct (decide (x = u)); simpl.
    + change (Qnat 1) with 1%Q. ring.
    + change (Qnat 0) with 0%Q. ring.
Qed.

Lemma py_count_filter (P : string -> Prop) `{!∀ x, Decision (P x)}
    (u : string) (l : list string) :
  P u -> py_count u (filter P l) = py_count u l.
Proof.
  intros Hu. induction l as [|x l IH]; [done|]. rewrite filter_cons.
  destruct (decide (P x)) as [Hx|Hx].
  - by rewrite !py_count_cons, IH.
  - rewrite py_count_cons, IH. rewrite decide_False; [done|]. by intros ->.
Qed.

(** ** The explanation of a score *)

Section Explanation.
Context (ln : Q -> Q) (docs : list string) (s0 : BM25Calculator.t).
Let s := bm25_fitted ln docs s0.
Let k1 := BM25Calculator.k1 s.
Let b := BM25Calculator.b s.

(** The loop of [get_term_analysis]. *)
Lemma fitted_analysis_loop (d : nat) (tokens l : list string)
    (acc : Q * list BM25Calculator.term_info) :
  (∀ t, t ∈ l -> t ∈ BM25Calculator.vocabulary s ->
        Formula.divisors_nonzero k1 b docs t d) ->
  for_acc l acc (fun acc term =>
    if decide (term ∈ BM25Calculator.vocabulary s) then
      let tf := py_get0 (Counter (Formula.tokens_of docs d)) term in
      idf ← py_getitem (BM25Calculator.idf_scores s) term;
      length_norm ← BM25Calculator.length_norm_of s (Formula.doc_length docs d);
      term_score ← BM25Calculator.term_score_of s tf idf length_norm;
      let query_count := py_count term tokens in
      let weighted_score := (term_score * Qnat query_count)%Q in
      mret ((acc.1 + weighted_score)%Q,
            acc.2 ++ [BM25Calculator.mk_term_info term query_count tf idf
                        length_norm term_score weighted_score])
    else mret acc)
  = Ok (foldl Qplus acc.1
          ((fun t => Formula.term_score ln k1 b docs t d * Qnat (py_count t tokens))%Q <$>
             filter (fun t => t ∈ BM25Calculator.vocabulary s) l),
        acc.2 ++
          ((fun t => BM25Calculator.mk_term_info t (py_count t tokens)
                       (Formula.tf docs t d) (Formula.idf ln docs t)
                       (Formula.length_norm b docs d)
                       (Formula.term_score ln k1 b docs t d)
                       (Formula.term_score ln k1 b docs t d * Qnat (py_count t tokens))%Q) <$>
             filter (fun t => t ∈ BM25Calculator.vocabulary s) l)).
Proof.
  unfold k1, b, s in *.
  match goal with |- context [for_acc _ _ ?f] => set (body := f) end.
  revert acc. induction l as [|t l IH]; intros [total infos] Hdef.
  - simpl. by rewrite app_nil_r.
  - rewrite for_acc_cons, filter_cons. unfold body at 2. cbn beta.
    destruct (decide (t ∈ BM25Calculator.vocabulary (bm25_fitted ln docs s0))) as [Hv|Hv].
    + destruct (Hdef t) as [Havg Hden]; [by left|done|].
      cbn zeta. rewrite fitted_idf by done. cbn [mbind result_bind].
      rewrite fitted_length_norm by done. cbn [mbind result_bind].
      rewrite fitted_term_score_of by done. cbn [mbind result_bind mret result_ret].
      rewrite IH by (intros u Hu; apply Hdef; by right).
      rewrite Counter_get. cbn [fst snd fmap list_fmap foldl].
      by rewrite <- app_assoc.
    + cbn [mbind result_bind mret result_ret].
      by rewrite IH by (intros u Hu; apply Hdef; by right).
Qed.

Lemma fitted_analysis (query : string) (d : nat) :
  d < length docs ->
  ¬ (Formula.avg_doc_length docs == 0)%Q ->
  (∀ t, t ∈ preprocess_text query -> t ∈ BM25Calculator.vocabulary s ->
        Formula.divisors_nonzero k1 b docs t d) ->
  let terms := filter (fun t => t ∈ BM25Calculator.vocabulary s)
                 (elements (list_to_set (preprocess_text query) : gset string)) in
  BM25Calculator.get_term_analysis query (Z.of_nat d) s
  = Ok (BM25Calculator.mk_analysis (Z.of_nat d) (Formula.doc_length docs d)
          (Formula.avg_doc_length docs)
          (Qnat (Formula.doc_length docs d) / Formula.avg_doc_length docs)%Q
          ((fun t => BM25Calculator.mk_term_info t (py_count t (preprocess_text query))
                       (Formula.tf docs t d) (Formula.idf ln docs t)
                       (Formula.length_norm b docs d)
                       (Formula.term_score ln k1 b docs t d)
                       (Formula.term_score ln k1 b docs t d
                        * Qnat (py_count t (preprocess_text query)))%Q) <$> terms)
          (py_fsum ((fun t => Formula.term_score ln k1 b docs t d
                              * Qnat (py_count t (preprocess_text query)))%Q <$> terms))).
Proof.
  intros Hd Havg Hdef terms. unfold k1, b, s in *.
  destruct (lookup_lt_is_Some_2 docs d Hd) as [doc Hdoc].
  unfold BM25Calculator.get_term_analysis. cbn zeta.
  rewrite (py_index_nat _ _ _ (fitted_freq ln docs s0 _ _ Hdoc)). cbn [mbind result_bind].
  rewrite (py_index_nat _ _ _ (fitted_length ln docs s0 _ _ Hdoc)). cbn [mbind result_bind].
  change (BM25Calculator.avg_doc_length (bm25_fitted ln docs s0))
    with (Formula.avg_doc_length docs).
  rewrite py_div_ok by done. cbn [mbind result_bind].
  rewrite fitted_analysis_loop; [done|].
  intros t Ht. apply Hdef. apply elem_of_elements in Ht.
  by apply elem_of_list_to_set in Ht.
Qed.
End Explanation.

(** After a successful fit, [get_term_analysis] lists the distinct query
    terms that are in the vocabulary, each with its count in the query and a
    weighted score that is its term score times that count, and its
    [total_score] is the sum of the weighted scores; the divisions are
    assumed defined. *)
Theorem explanation_entries (ln : Q -> Q) (docs : list string)
    (s0 s : BM25Calculator.t) (query : string) (d : nat) :
  BM25Calculator.fit ln docs s0 = (Ok tt, s) ->
  d < length docs ->
  ¬ (BM25Calculator.avg_doc_length s == 0)%Q ->
  (∀ t, t ∈ preprocess_text query -> t ∈ BM25Calculator.vocabulary s ->
        Formula.divisors_nonzero (BM25Calculator.k1 s) (BM25Calculator.b s) docs t d) ->
  ∃ a, BM25Calculator.get_term_analysis query (Z.of_nat d) s = Ok a ∧
       BM25Calculator.term <$> BM25Calculator.terms a
       = filter (fun t => t ∈ BM25Calculator.vocabulary s)
           (elements (list_to_set (preprocess_text query) : gset string)) ∧
       Forall (fun e =>
                 BM25Calculator.query_count e
                 = py_count (BM25Calculator.term e) (preprocess_text query) ∧
                 BM25Calculator.weighted_score e
                 = (BM25Calculator.term_score e * Qnat (BM25Calculator.query_count e))%Q)
              (BM25Calculator.terms a) ∧
       BM25Calculator.total_score a
       = py_fsum (BM25Calculator.weighted_score <$> BM25Calculator.terms a).
Proof.
  intros [_ ->]%bm25_fit_ok_inv Hd Havg Hdef.
  eexists. split; [by apply fitted_analysis|].
  cbn [BM25Calculator.terms BM25Calculator.total_score]. split; [|split].
  - rewrite <- list_fmap_compose. by rewrite <- (list_fmap_id (filter _ _)) at 2.
  - by apply Forall_fmap, Forall_forall.
  - by rewrite <- list_fmap_compose.
Qed.

Lemma explanation_entries_witness :
  ∃ a, BM25Calculator.get_term_analysis "cat Dog cat zebra" (Z.of_nat 0) demo_fitted = Ok a ∧
       BM25Calculator.term <$> BM25Calculator.terms a
       = filter (fun t => t ∈ BM25Calculator.vocabulary demo_fitted)
           (elements (list_to_set (preprocess_text "cat Dog cat zebra") : gset string)) ∧
       Forall (fun e =>
                 BM25Calculator.query_count e
                 = py_count (BM25Calculator.term e) (preprocess_text "cat Dog cat zebra") ∧
                 BM25Calculator.weighted_score e
                 = (BM25Calculator.term_score e * Qnat (BM25Calculator.query_count e))%Q)
              (BM25Calculator.terms a) ∧
       BM25Calculator.total_score a
       = py_fsum (BM25Calculator.weighted_score <$> BM25Calculator.terms a).
Proof.
  apply (explanation_entries ln_approx demo_docs demo_new demo_fitted
           "cat Dog cat zebra" 0).
  - vm_compute. reflexivity.
  - simpl. lia.
  - vm_compute. congruence.
  - intros t _ _. apply divisors_nonzero_valid; vm_compute; congruence.
Defined.

(** After a successful fit, the [total_score] of the explanation of a
    document equals the score that [calculate_bm25_score] gives the document
    for the same query: weighting the distinct terms by their count in the
    query adds up to summing over the query tokens with repetition.  The
    divisions are assumed defined. *)
Theorem explanation_total_is_score (ln : Q -> Q) (docs : list string)
    (s0 s : BM25Calculator.t) (query : string) (d : nat) :
  BM25Calculator.fit ln docs s0 = (Ok tt, s) ->
  d < length docs ->
  ¬ (BM25Calculator.avg_doc_length s == 0)%Q ->
  (∀ t, t ∈ preprocess_text query -> t ∈ BM25Calculator.vocabulary s ->
        Formula.divisors_nonzero (BM25Calculator.k1 s) (BM25Calculator.b s) docs t d) ->
  ∃ a x, BM25Calculator.get_term_analysis query (Z.of_nat d) s = Ok a ∧
         BM25Calculator.calculate_bm25_score query (Z.of_nat d) s = Ok x ∧
         (BM25Calculator.total_score a == x)%Q.
Proof.
  intros [_ ->]%bm25_fit_ok_inv Hd Havg Hdef.
  eexists _, _. split; [by apply fitted_analysis|]. split; [by apply fitted_score|].
  cbn [BM25Calculator.total_score]. unfold Formula.score. symmetry.
  set (V := BM25Calculator.vocabulary (bm25_fitted ln docs s0)).
  set (g := fun t => Formula.term_score ln (BM25Calculator.k1 (bm25_fitted ln docs s0))
                       (BM25Calculator.b (bm25_fitted ln docs s0)) docs t d).
  change (foldl Qplus 0%Q ?l) with (py_fsum l).
  rewrite (py_fsum_by_count g (filter (fun t => t ∈ V) (preprocess_text query))
             (filter (fun t => t ∈ V)
                (elements (list_to_set (preprocess_text query) : gset string)))).
  - apply py_fsum_ext. intros u Hu. apply list_elem_of_filter in Hu as [Hu _].
    by rewrite (py_count_filter (fun t => t ∈ V)).
  - apply NoDup_filter, NoDup_elements.
  - intros t Ht. apply list_elem_of_filter in Ht as [Hv Ht].
    apply list_elem_of_filter. split; [done|].
    by apply elem_of_elements, elem_of_list_to_set.
Qed.

Lemma explanation_total_is_score_witness :
  ∃ a x, BM25Calculator.get_term_analysis "cat Dog cat zebra" (Z.of_nat 0) demo_fitted = Ok a ∧
         BM25Calculator.calculate_bm25_score "cat Dog cat zebra" (Z.of_nat 0) demo_fitted = Ok x ∧
         (BM25Calculator.total_score a == x)%Q.
Proof.
  apply (explanation_total_is_score ln_approx demo_docs demo_new demo_fitted
           "cat Dog cat zebra" 0).
  - vm_compute. reflexivity.
  - simpl. lia.
  - vm_compute. congruence.
  - intros t _ _. apply divisors_nonzero_valid; vm_compute; congruence.
Defined.

(** ** What ranking can raise *)

Lemma bm25_fit_lengths (ln : Q -> Q) (docs : list string) (s : BM25Calculator.t) :
  let s' := (BM25Calculator.fit ln docs s).2 in
  length (BM25Calculator.doc_lengths s') = length (BM25Calculator.documents s') ∧
  (BM25Calculator.documents s' = [] ∨
   length (BM25Calculator.doc_term_freqs s') = length (BM25Calculator.documents s')).
Proof.
  destruct docs as [|doc docs].
  - rewrite bm25_fit_empty. destruct s. simpl. auto.
  - rewrite bm25_fit_nonempty by done. simpl. rewrite !length_fmap. auto.
Qed.

Lemma bm25_fits_lengths (ln : Q -> Q) (corpora : list (list string)) (k1 b : Q) :
  let s := bm25_fits ln corpora (bm25_new k1 b) in
  length (BM25Calculator.doc_lengths s) = length (BM25Calculator.documents s) ∧
  (BM25Calculator.documents s = [] ∨
   length (BM25Calculator.doc_term_freqs s) = length (BM25Calculator.documents s)).
Proof.
  induction corpora as [|docs corpora IH] using rev_ind; [simpl; auto|].
  unfold bm25_fits. rewrite foldl_app. simpl. apply bm25_fit_lengths.
Qed.

Lemma bm25_score_raise (s : BM25Calculator.t) (query : string) (i : nat) (e : exn) :
  bm25_vocab_covered s ->
  i < length (BM25Calculator.doc_lengths s) ->
  i < length (BM25Calculator.doc_term_freqs s) ->
  BM25Calculator.calculate_bm25_score query (Z.of_nat i) s = Raise e ->
  e = ZeroDivisionError.
Proof.
  intros Hinv H1 H2. unfold BM25Calculator.calculate_bm25_score. cbn zeta.
  destruct (lookup_lt_is_Some_2 _ _ H1) as [len Hlen].
  destruct (lookup_lt_is_Some_2 _ _ H2) as [freq Hfreq].
  rewrite (py_index_nat _ _ _ Hfreq), (py_index_nat _ _ _ Hlen).
  cbn [mbind result_bind]. intros Hr.
  assert (e ≠ ZeroDivisionError -> False) as Hcase; [|by destruct e; try done; exfalso; apply Hcase].
  intros Hne. revert Hr. apply for_acc_not_raise. intros acc t _.
  destruct (decide (t ∈ BM25Calculator.vocabulary s)) as [Hv|Hv]; [|done].
  destruct (py_getitem_covered (BM25Calculator.idf_scores s) t) as [v ->]; [by apply Hinv|].
  cbn [mbind result_bind]. unfold BM25Calculator.length_norm_of.
  destruct (py_div (Qnat len) _) as [r|e'] eqn:E3;
    [|apply py_div_raise in E3; subst e'; simpl; congruence].
  cbn [mbind result_bind mret result_ret]. unfold BM25Calculator.term_score_of.
  match goal with |- context [py_div ?x ?y] =>
    destruct (py_div x y) as [r'|e'] eqn:E5 end;
    [done|apply py_div_raise in E5; subst e'; simpl; congruence].
Qed.

(** After any sequence of [fit] calls on a new calculator, failed ones
    included, [rank_documents] either returns a ranking or raises
    [ZeroDivisionError]: it raises neither [IndexError] nor [KeyError]. *)
Theorem rank_documents_raises_only_division (ln : Q -> Q) (k1 b : Q)
    (corpora : list (list string)) (query : string) (top_k : option Z) (e : exn) :
  BM25Calculator.rank_documents query top_k (bm25_fits ln corpora (bm25_new k1 b))
  = Raise e ->
  e = ZeroDivisionError.
Proof.
  set (s := bm25_fits ln corpora (bm25_new k1 b)).
  assert (bm25_vocab_covered s) as Hinv
    by (apply bm25_fits_covered; intros t Ht; by apply elem_of_empty in Ht).
  destruct (bm25_fits_lengths ln corpora k1 b) as [Hl Hf]. fold s in Hl, Hf.
  unfold BM25Calculator.rank_documents. intros Hr.
  assert (e ≠ ZeroDivisionError -> False) as Hcase; [|by destruct e; try done; exfalso; apply Hcase].
  intros Hne.
  match type of Hr with context [for_acc ?l ?a ?f] =>
    pose proof (for_acc_not_raise e l a f) as Hloop;
    destruct (for_acc l a f) as [acc|err] end; [done|].
  cbn [mbind result_bind] in Hr. injection Hr as ->. apply Hloop; [|done].
  intros acc i Hi. apply elem_of_seq in Hi.
  destruct Hf as [Hempty|Hf]; [rewrite Hempty in Hi; simpl in Hi; lia|].
  destruct (BM25Calculator.calculate_bm25_score query (Z.of_nat i) s) as [sc|e'] eqn:E.
  - cbn [mbind result_bind].
    destruct (lookup_lt_is_Some_2 (BM25Calculator.documents s) i) as [doc Hdoc]; [lia|].
    by rewrite (py_index_nat _ _ _ Hdoc).
  - apply bm25_score_raise in E; [|done|lia..]. subst e'. simpl. congruence.
Qed.

Lemma rank_documents_raises_only_division_witness :
  BM25Calculator.rank_documents "a" None
    (bm25_fits ln_approx [["a"]; [EmptyString]] (bm25_new k1_default b_default))
  = Raise ZeroDivisionError ∧
  ZeroDivisionError = ZeroDivisionError.
Proof.
  split; [vm_compute; reflexivity|].
  apply (rank_documents_raises_only_division ln_approx k1_default b_default
           [["a"]; [EmptyString]] "a" None ZeroDivisionError).
  vm_compute. reflexivity.
Defined.

(** ** Corpus statistics *)

Lemma foldl_min_le (l : list nat) (x : nat) :
  foldl Nat.min x l <= x ∧ Forall (fun y => foldl Nat.min x l <= y) l ∧
  foldl Nat.min x l ∈ x :: l.
Proof.
  revert x. induction l as [|y l IH]; intros x; simpl.
  - split; [done|]. split; [constructor|by left].
  - destruct (IH (x `min` y)) as (H1 & H2 & H3). split; [lia|]. split.
    + constructor; [lia|done].
    + apply elem_of_cons in H3 as [H3|H3]; [|by right; right].
      rewrite H3. destruct (Nat.min_spec x y) as [[_ ->]|[_ ->]]; [by left|by right; left].
Qed.

Lemma foldl_max_ge (l : list nat) (x : nat) :
  x <= foldl Nat.max x l ∧ Forall (fun y => y <= foldl Nat.max x l) l ∧
  foldl Nat.max x l ∈ x :: l.
Proof.
  revert x. induction l as [|y l IH]; intros x; simpl.
  - split; [done|]. split; [constructor|by left].
  - destruct (IH (x `max` y)) as (H1 & H2 & H3). split; [lia|]. split.
    + constructor; [lia|done].
    + apply elem_of_cons in H3 as [H3|H3]; [|by right; right].
      rewrite H3. destruct (Nat.max_spec x y) as [[_ ->]|[_ ->]]; [by right; left|by left].
Qed.

Lemma py_sum_bounds (l : list nat) (lo hi : nat) :
  Forall (fun y => lo <= y <= hi) l ->
  lo * length l <= py_sum l <= hi * length l.
Proof.
  induction 1 as [|y l Hy Hl IH]; [unfold py_sum; simpl; lia|].
  rewrite py_sum_cons. simpl. lia.
Qed.

(** After a successful fit of the BM25 ranker, [get_corpus_statistics]
    returns: the number of documents and the total number of tokens of the
    corpus; a minimum and a maximum document length that are lengths of
    documents and bound every document length; and an average length that
    is the quotient of the total by the number of documents, as [fit]
    divided them, and lies between the minimum and the maximum. *)
Theorem get_corpus_statistics_fitted (ln : Q -> Q) (docs : list string)
    (r0 r : BM25DocumentRanker.t) :
  BM25DocumentRanker.fit ln docs r0 = (Ok tt, r) ->
  let lengths := (fun doc => length (preprocess_text doc)) <$> docs in
  ∃ st, BM25DocumentRanker.get_corpus_statistics r = Ok st ∧
        BM25DocumentRanker.num_documents st = length docs ∧
        BM25DocumentRanker.total_terms st = py_sum lengths ∧
        BM25DocumentRanker.min_doc_length st ∈ lengths ∧
        BM25DocumentRanker.max_doc_length st ∈ lengths ∧
        Forall (fun n => BM25DocumentRanker.min_doc_length st <= n
                         <= BM25DocumentRanker.max_doc_length st) lengths ∧
        BM25DocumentRanker.min_doc_length st * length docs
          <= BM25DocumentRanker.total_terms st
          <= BM25DocumentRanker.max_doc_length st * length docs ∧
        py_div (Qnat (BM25DocumentRanker.total_terms st))
               (Qnat (BM25DocumentRanker.num_documents st))
        = Ok (BM25DocumentRanker.avg_document_length st) ∧
        (Qnat (BM25DocumentRanker.min_doc_length st)
         <= BM25DocumentRanker.avg_document_length st)%Q ∧
        (BM25DocumentRanker.avg_document_length st
         <= Qnat (BM25DocumentRanker.max_doc_length st))%Q.
Proof.
  intros Hfit lengths. destruct docs as [|doc docs].
  - destruct (ranker_fit_empty ln r0) as [H _]. by rewrite Hfit in H.
  - rewrite ranker_fit_nonempty in Hfit by done. injection Hfit as <-.
    unfold BM25DocumentRanker.get_corpus_statistics.
    cbn [BM25DocumentRanker.fitted negb BM25DocumentRanker.bm25_calc
         BM25DocumentRanker.documents].
    assert (BM25Calculator.doc_lengths
              (bm25_fitted ln (doc :: docs) (BM25DocumentRanker.bm25_calc r0))
            = lengths) as ->
      by (unfold bm25_fitted, lengths; cbn [BM25Calculator.doc_lengths];
          by rewrite <- list_fmap_compose).
    assert (BM25Calculator.avg_doc_length
              (bm25_fitted ln (doc :: docs) (BM25DocumentRanker.bm25_calc r0))
            = (Qnat (py_sum lengths) / Qnat (length lengths))%Q) as ->
      by (unfold bm25_fitted, lengths; cbn [BM25Calculator.avg_doc_length];
          by rewrite <- list_fmap_compose, !length_fmap).
    unfold lengths. cbn [fmap list_fmap py_min py_max mbind result_bind mret result_ret].
    set (x := length (preprocess_text doc)).
    set (l := list_fmap string nat (fun doc => length (preprocess_text doc)) docs).
    destruct (foldl_min_le l x) as (Hm1 & Hm2 & Hm3).
    destruct (foldl_max_ge l x) as (HM1 & HM2 & HM3).
    assert (Forall (fun n => foldl Nat.min x l <= n <= foldl Nat.max x l) (x :: l)) as Hall.
    { constructor; [lia|]. rewrite Forall_forall in Hm2, HM2. apply Forall_forall.
      intros n Hn. split; [by apply Hm2|by apply HM2]. }
    eexists. split; [done|].
    cbn [BM25DocumentRanker.num_documents BM25DocumentRanker.total_terms
         BM25DocumentRanker.min_doc_length BM25DocumentRanker.max_doc_length
         BM25DocumentRanker.avg_document_length].
    split; [done|]. split; [done|]. split; [done|]. split; [done|]. split; [done|].
    pose proof (py_sum_bounds (x :: l) _ _ Hall) as Hb.
    assert (length (x :: l) = S (length docs)) as El
      by (unfold l; simpl; by rewrite length_fmap).
    rewrite El in Hb. cbn [length]. rewrite ?length_fmap.
    split; [done|].
    assert (0 < Qnat (S (length docs)))%Q as Hn by (apply Qnat_pos; lia).
    split; [|split].
    + by rewrite py_div_ok by (intros Hz; rewrite Hz in Hn; by apply Qlt_irrefl in Hn).
    + apply Qle_shift_div_l; [done|].
      unfold Qnat. rewrite <- inject_Z_mult, <- Zle_Qle.
      change ((fun doc : string => length (preprocess_text doc)) <$> docs) with l. lia.
    + apply Qle_shift_div_r; [done|].
      unfold Qnat. rewrite <- inject_Z_mult, <- Zle_Qle.
      change ((fun doc : string => length (preprocess_text doc)) <$> docs) with l. lia.
Qed.

Lemma get_corpus_statistics_fitted_witness :
  let lengths := (fun doc => length (preprocess_text doc)) <$> demo_docs in
  ∃ st, BM25DocumentRanker.get_corpus_statistics
          (BM25DocumentRanker.fit ln_approx demo_docs (ranker_new k1_default b_default)).2
        = Ok st ∧
        BM25DocumentRanker.num_documents st = length demo_docs ∧
        BM25DocumentRanker.total_terms st = py_sum lengths ∧
        BM25DocumentRanker.min_doc_length st ∈ lengths ∧
        BM25DocumentRanker.max_doc_length st ∈ lengths ∧
        Forall (fun n => BM25DocumentRanker.min_doc_length st <= n
                         <= BM25DocumentRanker.max_doc_length st) lengths ∧
        BM25DocumentRanker.min_doc_length st * length demo_docs
          <= BM25DocumentRanker.total_terms st
          <= BM25DocumentRanker.max_doc_length st * length demo_docs ∧
        py_div (Qnat (BM25DocumentRanker.total_terms st))
               (Qnat (BM25DocumentRanker.num_documents st))
        = Ok (BM25DocumentRanker.avg_document_length st) ∧
        (Qnat (BM25DocumentRanker.min_doc_length st)
         <= BM25DocumentRanker.avg_document_length st)%Q ∧
        (BM25DocumentRanker.avg_document_length st
         <= Qnat (BM25DocumentRanker.max_doc_length st))%Q.
Proof.
  apply (get_corpus_statistics_fitted ln_approx demo_docs (ranker_new k1_default b_default)).
  vm_compute. reflexivity.
Defined.

(** ** Term frequency and the TF-IDF vector *)

Lemma py_count_le (t : string) (l : list string) : py_count t l <= length l.
Proof. unfold py_count. apply length_filter. Qed.

Lemma calculate_tf_nonempty (t : string) (tokens : list string) :
  tokens ≠ [] ->
  TFIDFCalculator.calculate_tf t tokens
  = Ok (Qnat (py_count t tokens) / Qnat (length tokens))%Q.
Proof.
  intros Hne. unfold TFIDFCalculator.calculate_tf.
  destruct tokens as [|u tokens]; [done|]. cbn [length Nat.eqb]. cbn zeta.
  rewrite py_div_ok; [done|]. intros Hz%Qnat_eq0. done.
Qed.

(** [calculate_tf] never raises; the frequency it returns lies between 0 and
    1, and it is 0 exactly when the term does not occur in the document. *)
Theorem calculate_tf_range (t : string) (document : list string) :
  ∃ x, TFIDFCalculator.calculate_tf t document = Ok x ∧
       (0 <= x)%Q ∧ (x <= 1)%Q ∧ ((x == 0)%Q <-> t ∉ document).
Proof.
  destruct document as [|u l].
  - exists 0%Q. split; [done|]. split; [done|]. split; [done|].
    split; [intros _ H; by apply elem_of_nil in H|reflexivity].
  - rewrite calculate_tf_nonempty by done. eexists. split; [done|].
    set (n := length (u :: l)). set (c := py_count t (u :: l)).
    assert (0 < Qnat n)%Q as Hn by (apply Qnat_pos; unfold n; simpl; lia).
    assert (c <= n) as Hc by apply py_count_le.
    split; [|split; [|split]].
    + apply Qle_shift_div_l; [done|]. rewrite Qmult_0_l. apply Qnat_nonneg.
    + apply Qle_shift_div_r; [done|]. rewrite Qmult_1_l.
      unfold Qnat, Qle. simpl. lia.
    + intros Hz Hin.
      assert (Qnat c == 0)%Q as Hc0.
      { rewrite <- (Qmult_div_r (Qnat c) (Qnat n)), Hz; [ring|].
        intros E. rewrite E in Hn. by apply Qlt_irrefl in Hn. }
      apply Qnat_eq0 in Hc0. unfold c in Hc0.
      revert Hin. fold (¬ t ∈ u :: l). intros Hin.
      assert (0 < py_count t (u :: l)); [|lia].
      clear -Hin. induction (u :: l) as [|y k IH]; [by apply elem_of_nil in Hin|].
      rewrite py_count_cons. apply elem_of_cons in Hin as [->|Hin].
      * rewrite decide_True by done. lia.
      * specialize (IH Hin). lia.
    + intros Hnin. unfold c. rewrite py_count_zero by done.
      unfold Qdiv. change (Qnat 0) with 0%Q. ring.
Qed.

Section Vector.
Context (s : TFIDFCalculator.t) (tokens : list string).
Context (Hcov : tfidf_vocab_covered s) (Htok : tokens ≠ []).

(** The loop of [calculate_tfidf_vector]. *)
Lemma tfidf_vector_loop (l : list string) (acc : gmap string Q) :
  for_acc l acc (fun tfidf_vector term =>
    if decide (term ∈ TFIDFCalculator.vocabulary s) then
      tf ← TFIDFCalculator.calculate_tf term tokens;
      idf ← py_getitem (TFIDFCalculator.idf_scores s) term;
      mret (<[term := (tf * idf)%Q]> tfidf_vector)
    else mret tfidf_vector)
  = Ok (foldl (fun m t =>
                 if decide (t ∈ TFIDFCalculator.vocabulary s) then
                   <[t := (Qnat (py_count t tokens) / Qnat (length tokens)
                           * default 0 (TFIDFCalculator.idf_scores s !! t))%Q]> m
                 else m) acc l).
Proof.
  match goal with |- context [for_acc _ _ ?f] => set (body := f) end.
  revert acc. induction l as [|t l IH]; intros acc; [done|].
  rewrite for_acc_cons. unfold body at 2. cbn beta. cbn [foldl].
  destruct (decide (t ∈ TFIDFCalculator.vocabulary s)) as [Hv|Hv].
  - rewrite calculate_tf_nonempty by done. cbn [mbind result_bind].
    destruct (py_getitem_covered (TFIDFCalculator.idf_scores s) t) as [v Hv'];
      [by apply Hcov|].
    rewrite Hv'. cbn [mbind result_bind mret result_ret]. rewrite IH.
    unfold py_getitem in Hv'. destruct (_ !! t) as [v'|] eqn:E; [|done].
    by simplify_eq.
  - cbn [mbind result_bind mret result_ret]. apply IH.
Qed.

Lemma tfidf_fold_lookup (f : string -> Q) (l : list string) (acc : gmap string Q)
    (t : string) :
  foldl (fun m t => if decide (t ∈ TFIDFCalculator.vocabulary s)
                    then <[t := f t]> m else m) acc l !! t
  = if decide (t ∈ l ∧ t ∈ TFIDFCalculator.vocabulary s) then Some (f t)
    else acc !! t.
Proof.
  revert acc. induction l as [|u l IH]; intros acc.
  - cbn [foldl]. destruct (decide (t ∈ [] ∧ _)) as [[H _]|_]; [|done].
    by apply elem_of_nil in H.
  - cbn [foldl]. rewrite IH.
    destruct (decide (t ∈ l ∧ t ∈ TFIDFCalculator.vocabulary s)) as [[H1 H2]|Hn].
    + rewrite decide_True; [done|]. split; [by right|done].
    + destruct (decide (u = t)) as [->|Hne].
      * destruct (decide (t ∈ TFIDFCalculator.vocabulary s)) as [Hv|Hv].
        -- rewrite lookup_insert_eq. rewrite decide_True; [done|]. split; [by left|done].
        -- rewrite decide_False; [done|]. by intros [_ ?].
      * assert ((if decide (u ∈ TFIDFCalculator.vocabulary s)
                 then <[u := f u]> acc else acc) !! t = acc !! t) as ->.
        { destruct (decide (u ∈ _)); [by rewrite lookup_insert_ne|done]. }
        rewrite decide_False; [done|]. intros [Hin Hv]. apply Hn.
        apply elem_of_cons in Hin as [->|Hin]; done.
Qed.
End Vector.

(** On a calculator that has been fitted with a corpus that has a document,
    [calculate_tfidf_vector] returns a vector whose keys are exactly the
    tokens of the text that are in the vocabulary, and the value of a key is
    its frequency in the text times its IDF-table entry; a text without
    tokens gives the empty vector. *)
Theorem calculate_tfidf_vector_keys (ln : Q -> Q) (doc : string) (docs : list string)
    (s0 : TFIDFCalculator.t) (text : string) :
  let s := (TFIDFCalculator.fit ln (doc :: docs) s0).2 in
  let tokens := preprocess_text text in
  ∃ v, TFIDFCalculator.calculate_tfidf_vector text s = Ok v ∧
       dom v = list_to_set tokens ∩ TFIDFCalculator.vocabulary s ∧
       ∀ t, t ∈ dom v ->
            ∃ idf, TFIDFCalculator.idf_scores s !! t = Some idf ∧
                   v !! t = Some (Qnat (py_count t tokens) / Qnat (length tokens) * idf)%Q.
Proof.
  intros s tokens.
  assert (tfidf_vocab_covered s) as Hcov by apply tfidf_fit_covered.
  assert (TFIDFCalculator.documents s ≠ []) as Hdocs
    by (unfold s; by rewrite tfidf_fit_closed).
  unfold TFIDFCalculator.calculate_tfidf_vector.
  destruct (TFIDFCalculator.documents s) as [|d ds]; [done|]. cbn zeta. fold tokens.
  destruct (decide (tokens = [])) as [->|Hne].
  - exists ∅. split; [done|]. split.
    + rewrite dom_empty_L. apply set_eq. intros t.
      rewrite elem_of_intersection, elem_of_list_to_set.
      split; [by intros ?%elem_of_empty|by intros [?%elem_of_nil _]].
    + intros t Ht. rewrite dom_empty_L in Ht. by apply elem_of_empty in Ht.
  - rewrite tfidf_vector_loop by done. eexists. split; [done|]. split.
    + apply set_eq. intros t.
      rewrite elem_of_dom, tfidf_fold_lookup, elem_of_intersection, elem_of_list_to_set.
      destruct (decide (t ∈ tokens ∧ t ∈ TFIDFCalculator.vocabulary s)) as [H|H].
      * split; [done|by eauto].
      * rewrite lookup_empty. split; [by intros [? ?]|done].
    + intros t Ht. apply elem_of_dom in Ht. rewrite tfidf_fold_lookup in Ht |- *.
      destruct (decide (t ∈ tokens ∧ t ∈ TFIDFCalculator.vocabulary s)) as [[H1 H2]|H].
      * destruct (py_getitem_covered (TFIDFCalculator.idf_scores s) t) as [idf Hidf];
          [by apply Hcov|].
        unfold py_getitem in Hidf. destruct (_ !! t) as [idf'|] eqn:E; [|done].
        simplify_eq. by exists idf.
      * rewrite lookup_empty in Ht. by destruct Ht.
Qed.

(** ** Keywords of a text *)

Lemma py_setitem_to_map {V} (d : list (string * V)) (k : string) (v : V) :
  (list_to_map (py_setitem d k v) : gmap string V) = <[k := v]> (list_to_map d).
Proof.
  induction d as [|[k' v'] d IH]; [done|]. simpl.
  destruct (decide (k' = k)) as [->|Hne]; simpl.
  - by rewrite insert_insert_eq.
  - rewrite IH. by apply insert_insert_ne.
Qed.

Lemma py_setitem_keys {V} (d : list (string * V)) (k : string) (v : V) :
  (py_setitem d k v).*1 = if decide (k ∈ d.*1) then d.*1 else d.*1 ++ [k].
Proof.
  induction d as [|[k' v'] d IH].
  - cbn. destruct (decide (k ∈ [])) as [H|_]; [by apply elem_of_nil in H|done].
  - cbn [py_setitem]. destruct (decide (k' = k)) as [->|Hne].
    + rewrite !fmap_cons. cbn [fst]. rewrite decide_True; [done|by left].
    + rewrite !fmap_cons. cbn [fst]. rewrite IH.
      destruct (decide (k ∈ d.*1)) as [Hin|Hnin].
      * rewrite decide_True; [done|by right].
      * rewrite decide_False; [done|].
        intros Hc. apply elem_of_cons in Hc as [->|?]; done.
Qed.

Lemma py_setitem_NoDup {V} (d : list (string * V)) (k : string) (v : V) :
  NoDup d.*1 -> NoDup (py_setitem d k v).*1.
Proof.
  intros Hd. rewrite py_setitem_keys. destruct (decide (k ∈ d.*1)); [done|].
  apply NoDup_app. split; [done|]. split; [|apply NoDup_singleton].
  intros x Hx ->%list_elem_of_singleton. done.
Qed.

Section Items.
Context (s : TFIDFCalculator.t) (tokens : list string).
Context (Hcov : tfidf_vocab_covered s) (Htok : tokens ≠ []).

(** The loop of [calculate_tfidf_vector], on the list of items. *)
Lemma tfidf_items_loop (l : list string) (acc : list (string * Q)) :
  for_acc l acc (fun tfidf_vector term =>
    if decide (term ∈ TFIDFCalculator.vocabulary s) then
      tf ← TFIDFCalculator.calculate_tf term tokens;
      idf ← py_getitem (TFIDFCalculator.idf_scores s) term;
      mret (py_setitem tfidf_vector term (tf * idf)%Q)
    else mret tfidf_vector)
  = Ok (foldl (fun d t =>
                 if decide (t ∈ TFIDFCalculator.vocabulary s) then
                   py_setitem d t (Qnat (py_count t tokens) / Qnat (length tokens)
                                   * default 0 (TFIDFCalculator.idf_scores s !! t))%Q
                 else d) acc l).
Proof.
  match goal with |- context [for_acc _ _ ?f] => set (body := f) end.
  revert acc. induction l as [|t l IH]; intros acc; [done|].
  rewrite for_acc_cons. unfold body at 2. cbn beta. cbn [foldl].
  destruct (decide (t ∈ TFIDFCalculator.vocabulary s)) as [Hv|Hv].
  - rewrite calculate_tf_nonempty by done. cbn [mbind result_bind].
    destruct (py_getitem_covered (TFIDFCalculator.idf_scores s) t) as [v Hv'];
      [by apply Hcov|].
    rewrite Hv'. cbn [mbind result_bind mret result_ret]. rewrite IH.
    unfold py_getitem in Hv'. destruct (_ !! t) as [v'|] eqn:E; [|done].
    by simplify_eq.
  - cbn [mbind result_bind mret result_ret]. apply IH.
Qed.
End Items.

Lemma items_fold_to_map (V : gset string) (f : string -> Q) (l : list string)
    (acc : list (string * Q)) :
  (list_to_map (foldl (fun d t => if decide (t ∈ V) then py_setitem d t (f t) else d)
                      acc l) : gmap string Q)
  = foldl (fun m t => if decide (t ∈ V) then <[t := f t]> m else m)
          (list_to_map acc) l.
Proof.
  revert acc. induction l as [|t l IH]; intros acc; [done|]. cbn [foldl].
  rewrite IH. destruct (decide (t ∈ V)); [by rewrite py_setitem_to_map|done].
Qed.

Lemma items_fold_NoDup (V : gset string) (f : string -> Q) (l : list string)
    (acc : list (string * Q)) :
  NoDup acc.*1 ->
  NoDup (foldl (fun d t => if decide (t ∈ V) then py_setitem d t (f t) else d) acc l).*1.
Proof.
  revert acc. induction l as [|t l IH]; intros acc Hacc; [done|]. cbn [foldl].
  apply IH. destruct (decide (t ∈ V)); [by apply py_setitem_NoDup|done].
Qed.

(** On a calculator that has been fitted with a corpus that has a document,
    [get_top_keywords] returns the first [top_k] items of the TF-IDF vector
    of the text, sorted by score, descending: the items are those of the
    dictionary that [calculate_tfidf_vector] returns, each key once. *)
Theorem tfidf_top_keywords (ln : Q -> Q) (doc : string) (docs : list string)
    (s0 : TFIDFCalculator.t) (text : string) (k : nat) :
  let s := (TFIDFCalculator.fit ln (doc :: docs) s0).2 in
  ∃ v K, TFIDFCalculator.calculate_tfidf_vector text s = Ok v ∧
         TFIDFCalculator.get_top_keywords text (Z.of_nat k) s = Ok (take k K) ∧
         StronglySorted (key_ge snd) K ∧
         NoDup K.*1 ∧
         ∀ t x, (t, x) ∈ K <-> v !! t = Some x.
Proof.
  intros s.
  assert (tfidf_vocab_covered s) as Hcov by apply tfidf_fit_covered.
  assert (TFIDFCalculator.documents s ≠ []) as Hdocs
    by (unfold s; by rewrite tfidf_fit_closed).
  unfold TFIDFCalculator.get_top_keywords, TFIDFCalculator.calculate_tfidf_vector,
    TFIDFCalculator.calculate_tfidf_vector_items.
  destruct (TFIDFCalculator.documents s) as [|d ds]; [done|]. cbn zeta.
  destruct (decide (preprocess_text text = [])) as [->|Hne].
  - exists ∅, []. cbn [for_acc mbind result_bind mret result_ret sort_desc foldr].
    rewrite py_slice_to_nil, take_nil. split; [done|]. split; [done|].
    split; [constructor|]. split; [constructor|]. intros t x.
    rewrite lookup_empty. split; [by intros ?%elem_of_nil|done].
  - rewrite tfidf_vector_loop, tfidf_items_loop by done.
    cbn [mbind result_bind mret result_ret].
    eexists _, _. split; [done|]. split.
    + by rewrite py_slice_to_nat, take_min_length.
    + split; [apply sort_desc_key_ge|]. split.
      * rewrite sort_desc_perm. apply items_fold_NoDup. constructor.
      * intros t x. rewrite sort_desc_perm.
        rewrite <- (items_fold_to_map _ _ _ []).
        apply elem_of_list_to_map. apply items_fold_NoDup. constructor.
Qed.

(** ** Cosine similarity *)

Lemma py_fsum_squares_nonneg (l : list Q) : (0 <= py_fsum ((fun a => a * a) <$> l))%Q.
Proof.
  induction l as [|x l IH]; [done|]. rewrite fmap_cons, py_fsum_cons.
  assert (0 <= x * x)%Q by nra. lra.
Qed.

Lemma py_sqrt_ok (sqrt : Q -> Q) (x : Q) : (0 <= x)%Q -> py_sqrt sqrt x = Ok (sqrt x).
Proof.
  intros H. unfold py_sqrt.
  by replace (Qle_bool 0 x) with true by (symmetry; by apply Qle_bool_iff).
Qed.

Lemma zip_with_fmap_same {A B C D} (g : B -> C -> D) (f1 : A -> B) (f2 : A -> C)
    (l : list A) :
  zip_with g (f1 <$> l) (f2 <$> l) = (fun x => g (f1 x) (f2 x)) <$> l.
Proof. induction l as [|x l IH]; [done|]. rewrite !fmap_cons. cbn [zip_with]. by rewrite IH. Qed.

Section Cosine.
Context (sqrt : Q -> Q) (vec1 vec2 : gmap string Q).
Let terms : list string := elements (dom vec1 ∪ dom vec2 : gset string).
Let f1 : string -> Q := fun term => default 0%Q (vec1 !! term).
Let f2 : string -> Q := fun term => default 0%Q (vec2 !! term).
Let n1 : Q := sqrt (py_fsum ((fun a => a * a)%Q <$> (f1 <$> terms))).
Let n2 : Q := sqrt (py_fsum ((fun a => a * a)%Q <$> (f2 <$> terms))).

(** [cosine_similarity] without its exceptions. *)
Lemma cosine_similarity_closed :
  DocumentRanker.cosine_similarity sqrt vec1 vec2
  = Ok (if decide (dom vec1 ∪ dom vec2 = (∅ : gset string)) then 0%Q
        else if Qeq_bool n1 0 || Qeq_bool n2 0 then 0%Q
        else (py_fsum ((fun t => f1 t * f2 t)%Q <$> terms) / (n1 * n2))%Q).
Proof.
  unfold DocumentRanker.cosine_similarity. cbn zeta.
  destruct (decide (dom vec1 ∪ dom vec2 = ∅)) as [|Hne]; [done|].
  rewrite !py_sqrt_ok by apply py_fsum_squares_nonneg. cbn [mbind result_bind].
  fold terms. fold f1. fold f2. fold n1. fold n2.
  destruct (Qeq_bool n1 0) eqn:E1; [done|].
  destruct (Qeq_bool n2 0) eqn:E2; [done|]. cbn [orb].
  rewrite py_div_ok.
  - by rewrite zip_with_fmap_same.
  - intros Hz. apply Qmult_integral in Hz as [Hz|Hz]; apply Qeq_bool_iff in Hz; congruence.
Qed.
End Cosine.

(** [cosine_similarity] never raises: the roots are taken of sums of
    squares and the division is reached only with two non-zero norms. *)
Theorem cosine_similarity_returns (sqrt : Q -> Q) (vec1 vec2 : gmap string Q) :
  ∃ x, DocumentRanker.cosine_similarity sqrt vec1 vec2 = Ok x.
Proof. rewrite cosine_similarity_closed. by eexists. Qed.

(** [cosine_similarity] is symmetric in its two vectors. *)
Theorem cosine_similarity_sym (sqrt : Q -> Q) (vec1 vec2 : gmap string Q) :
  ∃ x y, DocumentRanker.cosine_similarity sqrt vec1 vec2 = Ok x ∧
         DocumentRanker.cosine_similarity sqrt vec2 vec1 = Ok y ∧
         (x == y)%Q.
Proof.
  rewrite !cosine_similarity_closed. eexists _, _. split; [done|]. split; [done|].
  rewrite (union_comm_L (dom vec2) (dom vec1)).
  destruct (decide (dom vec1 ∪ dom vec2 = ∅)); [reflexivity|].
  rewrite (orb_comm (Qeq_bool (sqrt (py_fsum ((fun a => a * a)%Q <$>
             ((fun term => default 0%Q (vec2 !! term)) <$> _)))) 0)).
  destruct (_ || _); [reflexivity|].
  apply Qeq_trans with
    (py_fsum ((fun t => default 0%Q (vec2 !! t) * default 0%Q (vec1 !! t))%Q <$>
                elements (dom vec1 ∪ dom vec2))
     / (sqrt (py_fsum ((fun a => a * a)%Q <$>
                 ((fun term => default 0%Q (vec1 !! term)) <$>
                    elements (dom vec1 ∪ dom vec2))))
        * sqrt (py_fsum ((fun a => a * a)%Q <$>
                 ((fun term => default 0%Q (vec2 !! term)) <$>
                    elements (dom vec1 ∪ dom vec2))))))%Q.
  - unfold Qdiv. apply Qmult_comp; [|reflexivity].
    apply py_fsum_ext. intros t _. ring.
  - unfold Qdiv. apply Qmult_comp; [reflexivity|]. apply Qinv_comp. ring.
Qed.

(** Two vectors without a common key have similarity 0. *)
Theorem cosine_similarity_disjoint (sqrt : Q -> Q) (vec1 vec2 : gmap string Q) :
  dom vec1 ## dom vec2 ->
  ∃ x, DocumentRanker.cosine_similarity sqrt vec1 vec2 = Ok x ∧ (x == 0)%Q.
Proof.
  intros Hdisj. rewrite cosine_similarity_closed. eexists. split; [done|].
  destruct (decide (dom vec1 ∪ dom vec2 = ∅)); [reflexivity|].
  destruct (_ || _); [reflexivity|].
  rewrite py_fsum_zero; [unfold Qdiv; ring|].
  apply Forall_fmap, Forall_forall. intros t _. simpl.
  destruct (vec1 !! t) as [a|] eqn:E1; [|simpl; ring].
  destruct (vec2 !! t) as [c|] eqn:E2; [|simpl; ring].
  exfalso. apply (Hdisj t); apply elem_of_dom; eauto.
Qed.

Lemma cosine_similarity_disjoint_witness :
  ∃ x, DocumentRanker.cosine_similarity (fun q => q) {["cat" := 1%Q]} {["dog" := 2%Q]}
       = Ok x ∧ (x == 0)%Q.
Proof.
  apply (cosine_similarity_disjoint (fun q => q) {["cat" := 1%Q]} {["dog" := 2%Q]}).
  rewrite !dom_singleton_L. apply disjoint_singleton_l.
  intros H%elem_of_singleton. discriminate H.
Defined.

(** ** The TF-IDF ranker *)

Lemma doc_ranker_fit_loop (calc : TFIDFCalculator.t) (docs0 l : list string)
    (vs0 : list (gmap string Q)) :
  TFIDFCalculator.documents calc ≠ [] -> tfidf_vocab_covered calc ->
  ∃ vs,
    for_each l (fun doc =>
      calc ← gets DocumentRanker.tfidf_calc;
      doc_vector ← lift (TFIDFCalculator.calculate_tfidf_vector doc calc);
      modify (fun r => DocumentRanker.mk (DocumentRanker.tfidf_calc r)
                         (DocumentRanker.documents r)
                         (DocumentRanker.document_vectors r ++ [doc_vector])))
      (DocumentRanker.mk calc docs0 vs0)
    = (Ok tt, DocumentRanker.mk calc docs0 (vs0 ++ vs)) ∧
    Forall2 (fun doc v => TFIDFCalculator.calculate_tfidf_vector doc calc = Ok v) l vs.
Proof.
  intros Hdocs Hcov. revert vs0. induction l as [|doc l IH]; intros vs0.
  - exists []. split; [by rewrite app_nil_r|constructor].
  - pose proof (tfidf_vector_ok calc doc Hdocs Hcov) as Hok.
    destruct (TFIDFCalculator.calculate_tfidf_vector doc calc) as [v|e] eqn:E;
      [|discriminate Hok].
    destruct (IH (vs0 ++ [v])) as (vs & Hloop & Hall).
    exists (v :: vs). split; [|by constructor].
    cbn [for_each]. unfold mbind at 1, M_bind at 1.
    unfold mbind at 1, M_bind at 1, gets at 1. cbn beta iota.
    unfold mbind at 1, M_bind at 1, lift at 1.
    cbn [DocumentRanker.tfidf_calc]. rewrite E. unfold modify at 1. cbn beta iota.
    cbn [DocumentRanker.tfidf_calc DocumentRanker.documents
         DocumentRanker.document_vectors].
    rewrite Hloop. by rewrite <- app_assoc.
Qed.

Lemma doc_ranker_fit_closed (ln : Q -> Q) (doc : string) (docs : list string)
    (r0 : DocumentRanker.t) :
  ∃ vs,
    DocumentRanker.fit ln (doc :: docs) r0
    = (Ok tt, DocumentRanker.mk
                (tfidf_fitted ln (doc :: docs) (DocumentRanker.tfidf_calc r0))
                (doc :: docs) vs) ∧
    Forall2 (fun d v =>
               TFIDFCalculator.calculate_tfidf_vector d
                 (tfidf_fitted ln (doc :: docs) (DocumentRanker.tfidf_calc r0)) = Ok v)
            (doc :: docs) vs.
Proof.
  destruct r0 as [calc ds vs0].
  set (calc' := tfidf_fitted ln (doc :: docs) calc).
  assert (tfidf_vocab_covered calc') as Hcov.
  { pose proof (tfidf_fit_covered ln (doc :: docs) calc) as H.
    by rewrite tfidf_fit_closed in H. }
  destruct (doc_ranker_fit_loop calc' (doc :: docs) (doc :: docs) [])
    as (vs & Hloop & Hall); [done|done|].
  exists vs. split; [|done].
  unfold DocumentRanker.fit.
  unfold mbind at 1, M_bind at 1, modify at 1. cbn beta iota.
  unfold mbind at 1, M_bind at 1, DocumentRanker.on_calc at 1.
  cbn [DocumentRanker.tfidf_calc DocumentRanker.documents DocumentRanker.document_vectors].
  rewrite tfidf_fit_closed. fold calc'.
  unfold mbind at 1, M_bind at 1, modify at 1. cbn beta iota.
  cbn [DocumentRanker.tfidf_calc DocumentRanker.documents].
  by rewrite Hloop.
Qed.

(** [fit] of the TF-IDF ranker with a corpus that has a document always
    succeeds; it stores the corpus and caches one vector per document, the
    one that [calculate_tfidf_vector] gives for that document on the fitted
    calculator. *)
Theorem doc_ranker_fit_vectors (ln : Q -> Q) (doc : string) (docs : list string)
    (r0 : DocumentRanker.t) :
  let r := (DocumentRanker.fit ln (doc :: docs) r0).2 in
  (DocumentRanker.fit ln (doc :: docs) r0).1 = Ok tt ∧
  DocumentRanker.documents r = doc :: docs ∧
  length (DocumentRanker.document_vectors r) = length (doc :: docs) ∧
  ∀ i d, (doc :: docs) !! i = Some d ->
         ∃ v, DocumentRanker.document_vectors r !! i = Some v ∧
              TFIDFCalculator.calculate_tfidf_vector d (DocumentRanker.tfidf_calc r) = Ok v.
Proof.
  destruct (doc_ranker_fit_closed ln doc docs r0) as (vs & -> & Hall).
  cbn [fst snd DocumentRanker.documents DocumentRanker.document_vectors
       DocumentRanker.tfidf_calc].
  split; [done|]. split; [done|]. split; [symmetry; by eapply Forall2_length|].
  intros i d Hd. destruct (Forall2_lookup_l _ _ _ _ _ Hall Hd) as (v & Hv & E).
  by exists v.
Qed.

Lemma imap_index_fst {A} (l : list A) (a : nat) :
  (imap (fun i v => (a + i, v)) l).*1 = seq a (length l).
Proof.
  revert a. induction l as [|x l IH]; intros a; [done|].
  rewrite imap_cons, fmap_cons. cbn [fst length seq]. rewrite Nat.add_0_r. f_equal.
  rewrite <- (IH (S a)). f_equal. apply imap_ext. intros i y _. simpl. f_equal. lia.
Qed.

Lemma imap_index_lookup {A} (l : list A) (j : nat) (iv : nat * A) :
  imap (fun i v => (i, v)) l !! j = Some iv -> iv.1 = j ∧ l !! j = Some iv.2.
Proof.
  rewrite list_lookup_imap. destruct (l !! j) as [v|]; [|done].
  simpl. by intros [= <-].
Qed.

Lemma seq_image_sorted {A} (f : A -> nat) (l : list A) (a n : nat) :
  f <$> l = seq a n -> StronglySorted (fun x y => f x < f y) l.
Proof.
  revert a n. induction l as [|x l IH]; intros a n H; [constructor|].
  destruct n as [|n]; [done|]. rewrite fmap_cons in H. cbn [seq] in H.
  injection H as Hx Hl. constructor; [by eapply IH|].
  apply Forall_forall. intros y Hy.
  assert (f y ∈ seq (S a) n) as Hin by (rewrite <- Hl; by apply list_elem_of_fmap_2).
  apply elem_of_seq in Hin. lia.
Qed.

Lemma Forall2_image_eq {A B} (f : A -> nat) (g : B -> nat) (P : A -> B -> Prop)
    (l : list A) (k : list B) :
  Forall2 (fun a b => g b = f a ∧ P a b) l k -> g <$> k = f <$> l.
Proof.
  induction 1 as [|a b l k [E _] _ IH]; [done|]. rewrite !fmap_cons. by rewrite E, IH.
Qed.

(** The loop of [rank_documents] of the TF-IDF ranker. *)
Lemma doc_ranker_rank_loop (sqrt : Q -> Q) (docs : list string)
    (query_vector : gmap string Q) (l : list (nat * gmap string Q))
    (acc : list (nat * string * Q)) :
  Forall (fun iv => iv.1 < length docs) l ->
  ∃ scores,
    for_acc l acc (fun scores iv =>
      similarity ← DocumentRanker.cosine_similarity sqrt query_vector iv.2;
      doc ← py_index docs (Z.of_nat iv.1);
      mret (scores ++ [(iv.1, doc, similarity)]))
    = Ok (acc ++ scores) ∧
    Forall2 (fun iv x =>
               x.1.1 = iv.1 ∧
               (docs !! iv.1 = Some x.1.2 ∧
                DocumentRanker.cosine_similarity sqrt query_vector iv.2 = Ok x.2))
            l scores.
Proof.
  intros Hl. revert acc. induction Hl as [|[i v] l Hi Hl IH]; intros acc.
  - exists []. split; [by rewrite app_nil_r|constructor].
  - cbn [fst] in Hi.
    destruct (DocumentRanker.cosine_similarity sqrt query_vector v) as [sim|err] eqn:Ec;
      [|rewrite cosine_similarity_closed in Ec; discriminate Ec].
    destruct (lookup_lt_is_Some_2 docs i Hi) as [doc Hdoc].
    destruct (IH (acc ++ [(i, doc, sim)])) as (scores & E & Hall).
    exists ((i, doc, sim) :: scores). split.
    + rewrite for_acc_cons. cbn [fst snd]. rewrite Ec. cbn [mbind result_bind].
      rewrite (py_index_nat _ _ doc) by done.
      cbn [mbind result_bind mret result_ret].
      rewrite E. by rewrite <- app_assoc.
    + constructor; [|done]. by cbn [fst snd].
Qed.

(** [rank_documents] of the TF-IDF ranker.  On a new ranker it raises
    [ValueError].  After a fit with a corpus that has a document it always
    returns, whatever the query: without [top_k], one entry per document,
    each with the document's index, the document itself and the cosine
    similarity of the query's vector and the document's cached vector; the
    entries come by decreasing score and, among equal scores, by increasing
    index; with a [top_k] that is not negative, it returns the first [top_k]
    entries of that list. *)
Theorem doc_ranker_rank_sorted (sqrt ln : Q -> Q) (doc : string) (docs : list string)
    (r0 : DocumentRanker.t) (query : string) (top_k : option Z) :
  (r ← DocumentRanker.init; DocumentRanker.rank_documents sqrt query top_k r)
  = Raise ValueError ∧
  let r := (DocumentRanker.fit ln (doc :: docs) r0).2 in
  ∃ qv L,
    TFIDFCalculator.calculate_tfidf_vector query (DocumentRanker.tfidf_calc r) = Ok qv ∧
    DocumentRanker.rank_documents sqrt query None r = Ok L ∧
    length L = length (doc :: docs) ∧
    L.*1.*1 ≡ₚ seq 0 (length (doc :: docs)) ∧
    StronglySorted rank_before L ∧
    (∀ x, x ∈ L ->
          (doc :: docs) !! x.1.1 = Some x.1.2 ∧
          ∃ dv, DocumentRanker.document_vectors r !! x.1.1 = Some dv ∧
                DocumentRanker.cosine_similarity sqrt qv dv = Ok x.2) ∧
    ∀ k : nat,
      DocumentRanker.rank_documents sqrt query (Some (Z.of_nat k)) r
      = Ok (take (k `min` length (doc :: docs)) L).
Proof.
  split; [done|].
  destruct (doc_ranker_fit_closed ln doc docs r0) as (vs & -> & Hall).
  cbv zeta.
  cbn [snd DocumentRanker.tfidf_calc DocumentRanker.documents
       DocumentRanker.document_vectors].
  assert (tfidf_vocab_covered
            (tfidf_fitted ln (doc :: docs) (DocumentRanker.tfidf_calc r0))) as Hcov.
  { pose proof (tfidf_fit_covered ln (doc :: docs) (DocumentRanker.tfidf_calc r0)) as H.
    by rewrite tfidf_fit_closed in H. }
  assert (TFIDFCalculator.documents
            (tfidf_fitted ln (doc :: docs) (DocumentRanker.tfidf_calc r0)) ≠ []) as Hne
    by done.
  revert Hall Hcov Hne.
  generalize (tfidf_fitted ln (doc :: docs) (DocumentRanker.tfidf_calc r0)).
  intros calc Hall Hcov Hne.
  pose proof (tfidf_vector_ok calc query Hne Hcov) as Hq.
  destruct (TFIDFCalculator.calculate_tfidf_vector query calc) as [qv|err] eqn:Eq;
    [clear Hq|discriminate Hq].
  assert (length vs = length (doc :: docs)) as Hlen
    by (symmetry; by eapply Forall2_length).
  destruct (doc_ranker_rank_loop sqrt (doc :: docs) qv
              (imap (fun i v => (i, v)) vs) [])
    as (scores & Eloop & HF2).
  { apply Forall_lookup. intros j iv Hj.
    apply imap_index_lookup in Hj as [-> Hj]. rewrite <- Hlen.
    by eapply lookup_lt_Some. }
  rewrite app_nil_l in Eloop.
  assert (∀ tk, DocumentRanker.rank_documents sqrt query tk
                  (DocumentRanker.mk calc (doc :: docs) vs)
                = Ok (match tk with
                      | Some k => py_slice_to (sort_desc snd scores) k
                      | None => sort_desc snd scores
                      end)) as Hrank.
  { intros tk. unfold DocumentRanker.rank_documents.
    cbn [DocumentRanker.tfidf_calc DocumentRanker.documents
         DocumentRanker.document_vectors].
    rewrite Eq. cbn [mbind result_bind]. by rewrite Eloop. }
  assert ((fun x : nat * string * Q => x.1.1) <$> scores = seq 0 (length (doc :: docs)))
    as Hidx.
  { rewrite (Forall2_image_eq fst (fun x : nat * string * Q => x.1.1) _ _ _ HF2).
    rewrite <- Hlen. apply (imap_index_fst vs 0). }
  assert (length scores = length (doc :: docs)) as Hls.
  { rewrite <- (length_fmap (fun x : nat * string * Q => x.1.1)), Hidx.
    apply length_seq. }
  exists qv, (sort_desc snd scores).
  split; [done|]. split; [apply Hrank|].
  split; [by rewrite sort_desc_length|].
  split.
  { rewrite sort_desc_perm. rewrite <- list_fmap_compose. by rewrite <- Hidx. }
  split.
  { apply (sort_desc_stable snd (fun x : nat * string * Q => x.1.1)).
    by eapply seq_image_sorted. }
  split.
  { intros x Hx. rewrite sort_desc_perm in Hx.
    apply list_elem_of_lookup in Hx as [j Hj].
    destruct (Forall2_lookup_r _ _ _ _ _ HF2 Hj) as (iv & Hiv & E1 & E2 & E3).
    apply imap_index_lookup in Hiv as [Hi Hv].
    rewrite E1. split; [done|]. exists iv.2. by rewrite Hi. }
  intros k. rewrite Hrank, py_slice_to_nat, sort_desc_length. by rewrite Hls.
Qed.
